(** * ngd [domains]: DNS resolution, TLS probing, fallback chain and worker pool

    A shallow embedding of [cli/domains.go] (package [cli] of
    netograph/ngd).  The network, the random generator and the two output
    streams are the only effects of the program; they are modelled by an
    environment of oracles ([Env]), a [World] of call counters and a
    chronological trace of [Event]s. *)

From Stdlib Require Import List String Ascii ZArith Lia Bool Arith
  DecimalString Permutation.
From Stdlib.Strings Require Import Byte.
Import ListNotations.
Open Scope string_scope.
Open Scope list_scope.
Open Scope Z_scope.

(* ================================================================== *)
(** * Data model *)

(** [const ResolverRetries = 5] *)
Definition ResolverRetries : Z := 5.

(** [var Resolvers = []string{...}] *)
Definition Resolvers : list string :=
  [ (* Google *)
    "8.8.8.8";
    "8.8.4.4";
    (* Cloudflare *)
    "1.1.1.1";
    "1.0.0.1";
    (* Quad9 *)
    "9.9.9.9";
    "149.112.112.112";
    (* OpenDNS *)
    "208.67.222.222";
    "208.67.220.220" ].

(** [time.Millisecond], in nanoseconds ([time.Duration] is an [int64]). *)
Definition Millisecond : Z := 1000000.
Definition Second : Z := 1000 * Millisecond.

(** Two's complement wrap-around of Go's [int64] arithmetic. *)
Definition wrap64 (z : Z) : Z := (z + 2 ^ 63) mod 2 ^ 64 - 2 ^ 63.

(** [dns.TypeA], [dns.ClassINET] *)
Definition TypeA : Z := 1.
Definition ClassINET : Z := 1.

(** [dns.Question] and the part of [dns.Msg] that [resolve] fills in for
    the query (the message id is a fresh random number and plays no role
    in the control flow). *)
Record Question := { Name : string; Qtype : Z; Qclass : Z }.
Record Query := { RecursionDesired : bool; Questions : list Question }.

(** An IPv4 address as carried by an A record. *)
Record IPv4 := { o1 : byte; o2 : byte; o3 : byte; o4 : byte }.

(** The resource records of an answer section: [resolve] only tells
    [*dns.A] from everything else. *)
Inductive RR :=
| RR_A (hdr : string) (A : IPv4)
| RR_CNAME (hdr : string) (target : string)
| RR_other (hdr : string) (rrtype : Z).

(** The reply: [dns.Msg] with its response code and answer section. *)
Record Msg := { Rcode : Z; Answer : list RR }.

(** What [c.Exchange] hands back, the pair [(in, err)].  The client
    returns a message whenever the error is nil; with an error the
    message is nil or a partially decoded packet. *)
Inductive ExchangeResult :=
| Reply (m : Msg)
| Failed (partial : option Msg) (e : string).

Definition in_of (r : ExchangeResult) : option Msg :=
  match r with Reply m => Some m | Failed p _ => p end.

Definition err_of (r : ExchangeResult) : option string :=
  match r with Reply _ => None | Failed _ e => Some e end.

(** [net.Dialer] with the two fields the workers set. *)
Record Dialer := { Timeout : Z; FallbackDelay : Z }.

(** [tls.DialWithDialer] returns a connection or an error. *)
Inductive DialResult :=
| Conn (id : nat)
| DialErr (e : string).

(** The errors built with [fmt.Errorf], kept with their arguments. *)
Inductive error :=
| ResolutionTimeout (n : nat) (resolvers : list string) (domain : string)
| EmptyAnswer (domain : string)
| NoAddressRecord (domain : string)
| HandshakeFailure (domain ip : string) (cause : string).

(** Everything the program does to the outside world, in order. *)
Inductive Event :=
| EvExchange (q : Query) (address : string)
| EvSleep (d : Z)
| EvDial (dialer : Dialer) (network address : string) (ServerName : string)
| EvClose (conn : nat)
| EvStderr (s : string)
| EvStdout (s : string).

(** The oracles: the [k]-th call of each primitive gets the [k]-th answer. *)
Record Env := {
  rand_src : nat -> Z;
  net_exchange : nat -> Query -> string -> ExchangeResult;
  net_dial : nat -> Dialer -> string -> string -> option string;
  net_close : nat -> option string
}.

Record World := {
  n_rand : nat;
  n_exchange : nat;
  n_dial : nat;
  trace : list Event
}.

Definition world0 : World :=
  {| n_rand := 0; n_exchange := 0; n_dial := 0; trace := [] |}.

(* ================================================================== *)
(** * Formatting ([fmt] verbs used by the program) *)

(** [%d] *)
Definition fmt_d (n : nat) : string := NilEmpty.string_of_uint (Nat.to_uint n).

(** [%v] of a [[]string]: the elements separated by spaces, in brackets. *)
Definition fmt_v (l : list string) : string :=
  ("[" ++ String.concat " " l ++ "]")%string.

(** [net.IP.String] of an IPv4 address: dotted decimal. *)
Definition IP_String (a : IPv4) : string :=
  (fmt_d (Byte.to_nat (o1 a)) ++ "." ++ fmt_d (Byte.to_nat (o2 a)) ++ "." ++
   fmt_d (Byte.to_nat (o3 a)) ++ "." ++ fmt_d (Byte.to_nat (o4 a)))%string.

(** [err.Error()] *)
Definition Error (e : error) : string :=
  match e with
  | ResolutionTimeout n resolvers domain =>
      ("failed to resolve after " ++ fmt_d n ++ " retries on " ++
       fmt_v resolvers ++ ": " ++ domain)%string
  | EmptyAnswer domain => ("empty DNS answer for " ++ domain)%string
  | NoAddressRecord domain => ("no A records for " ++ domain)%string
  | HandshakeFailure domain ip cause =>
      (domain ++ " on " ++ ip ++ ": " ++ cause)%string
  end.

Definition newline : string := String (ascii_of_nat 10) EmptyString.

(* ================================================================== *)
(** * The effect monad *)

(** A computation ends with a value and a new world, panics, or exhausts
    the budget of loop iterations it was given. *)
Inductive Outcome (A : Type) :=
| Returns (a : A) (w : World)
| Panics (reason : string)
| OutOfFuel.
Arguments Returns {A} a w.
Arguments Panics {A} reason.
Arguments OutOfFuel {A}.

Definition M (A : Type) : Type := World -> Outcome A.

Definition ret {A} (a : A) : M A := fun w => Returns a w.

Definition bind {A B} (m : M A) (k : A -> M B) : M B :=
  fun w =>
    match m w with
    | Returns a w' => k a w'
    | Panics r => Panics r
    | OutOfFuel => OutOfFuel
    end.

Definition panic {A} (reason : string) : M A := fun _ => Panics reason.

Notation "x <- m ;; k" := (bind m (fun x => k))
  (at level 61, m at next level, right associativity).
Notation "m ;;; k" := (bind m (fun _ => k))
  (at level 61, right associativity).

Definition emit (e : Event) : M unit :=
  fun w => Returns tt {| n_rand := n_rand w; n_exchange := n_exchange w;
                         n_dial := n_dial w; trace := trace w ++ [e] |}.

Section Program.

Variable env : Env.

(** The budget of iterations granted to the [for] loop of [resolve]. *)
Variable fuel : nat.

(* ------------------------------------------------------------------ *)
(** ** Primitives *)

(** [rand.Int()]: a non-negative 63-bit integer, the source's word with
    the sign bit cleared. *)
Definition rand_Int : M Z :=
  fun w => Returns (Z.land (rand_src env (n_rand w)) (2 ^ 63 - 1))
                   {| n_rand := S (n_rand w); n_exchange := n_exchange w;
                      n_dial := n_dial w; trace := trace w |}.

(** [c.Exchange(ma, address)] *)
Definition Exchange (ma : Query) (address : string) : M ExchangeResult :=
  fun w => Returns (net_exchange env (n_exchange w) ma address)
                   {| n_rand := n_rand w; n_exchange := S (n_exchange w);
                      n_dial := n_dial w;
                      trace := trace w ++ [EvExchange ma address] |}.

(** [time.Sleep(d)] *)
Definition Sleep (d : Z) : M unit := emit (EvSleep d).

(** [tls.DialWithDialer(dialer, network, address, &tls.Config{ServerName})] *)
Definition DialWithDialer (dialer : Dialer) (network address ServerName : string)
  : M DialResult :=
  fun w => Returns (match net_dial env (n_dial w) dialer address ServerName with
                    | None => Conn (n_dial w)
                    | Some e => DialErr e
                    end)
                   {| n_rand := n_rand w; n_exchange := n_exchange w;
                      n_dial := S (n_dial w);
                      trace := trace w ++ [EvDial dialer network address ServerName] |}.

(** [conn.Close()] *)
Definition Close (conn : nat) : M (option string) :=
  fun w => Returns (net_close env conn)
                   {| n_rand := n_rand w; n_exchange := n_exchange w;
                      n_dial := n_dial w; trace := trace w ++ [EvClose conn] |}.

Definition Stderr (s : string) : M unit := emit (EvStderr s).
Definition Stdout (s : string) : M unit := emit (EvStdout s).

(** Indexing a slice: out of range is a run-time panic. *)
Definition index (l : list string) (i : Z) : M string :=
  if (i <? 0) || (Z.of_nat (List.length l) <=? i)
  then panic "index out of range"
  else match nth_error l (Z.to_nat i) with
       | Some s => ret s
       | None => panic "index out of range"
       end.

(* ------------------------------------------------------------------ *)
(** ** [resolver] and [resolve] *)

(** [return Resolvers[rand.Int()%len(Resolvers)]] *)
Definition resolver : M string :=
  r <- rand_Int ;;
  index Resolvers (Z.rem r (Z.of_nat (List.length Resolvers))).

(** The [for { ... }] loop of [resolve]; it returns the final [in] and
    the servers tried. *)
Fixpoint resolve_loop (n : nat) (ma : Query) (resolvers : list string)
  : M (option Msg * list string) :=
  match n with
  | O => fun _ => OutOfFuel
  | S n' =>
      res <- resolver ;;
      let resolvers := resolvers ++ [res] in
      r <- Exchange ma (res ++ ":53")%string ;;
      if match err_of r with None => true | Some _ => false end
         || (ResolverRetries <=? Z.of_nat (List.length resolvers))
      then ret (in_of r, resolvers)
      else
        Sleep (wrap64 (wrap64 (100 * Z.of_nat (List.length resolvers)) * Millisecond)) ;;;
        resolve_loop n' ma resolvers
  end.

(** The A records of an answer section, rendered, in the order given. *)
Fixpoint A_records (answer : list RR) : list string :=
  match answer with
  | [] => []
  | RR_A _ a :: rest => IP_String a :: A_records rest
  | _ :: rest => A_records rest
  end.

Definition query_A (domain : string) : Query :=
  {| RecursionDesired := true;
     Questions := [ {| Name := (domain ++ ".")%string;
                       Qtype := TypeA; Qclass := ClassINET |} ] |}.

(** [func resolve(domain string) ([]string, error)] *)
Definition resolve (domain : string) : M (list string * option error) :=
  let ma := query_A domain in
  x <- resolve_loop fuel ma [] ;;
  let '(in_, resolvers) := x in
  match in_ with
  | None =>
      ret ([], Some (ResolutionTimeout (List.length resolvers) resolvers domain))
  | Some m =>
      if (List.length (Answer m) =? 0)%nat
      then ret ([], Some (EmptyAnswer domain))
      else
        let ips := A_records (Answer m) in
        if (List.length ips =? 0)%nat
        then ret ([], Some (NoAddressRecord domain))
        else ret (ips, None)
  end.

(* ------------------------------------------------------------------ *)
(** ** [probeHttps] *)

(** The [for _, ip := range ips] loop of [probeHttps], with the running
    [lastErr]. *)
Fixpoint probe_loop (dialer : Dialer) (domain : string) (debug : bool)
    (lastErr : option error) (ips : list string) : M (option error) :=
  match ips with
  | [] => ret lastErr
  | ip :: rest =>
      (match debug, lastErr with
       | true, Some e => Stderr (Error e ++ newline)%string
       | _, _ => ret tt
       end) ;;;
      c <- DialWithDialer dialer "tcp" (ip ++ ":443")%string domain ;;
      match c with
      | DialErr err =>
          probe_loop dialer domain debug
            (Some (HandshakeFailure domain ip err)) rest
      | Conn conn =>
          cerr <- Close conn ;;
          (match cerr, debug with
           | Some err, true =>
               Stderr (domain ++ " on " ++ ip ++ ": error on close, " ++ err)%string
           | _, _ => ret tt
           end) ;;;
          ret None
      end
  end.

(** [func probeHttps(dialer *net.Dialer, domain string, debug bool) error] *)
Definition probeHttps (dialer : Dialer) (domain : string) (debug : bool)
  : M (option error) :=
  x <- resolve domain ;;
  let '(ips, err) := x in
  match err with
  | Some e => ret (Some e)
  | None => probe_loop dialer domain debug None ips
  end.

(* ------------------------------------------------------------------ *)
(** ** The body of a worker's [for domain := range ch] loop *)

Definition classify (dialer : Dialer) (debug : bool) (domain : string) : M unit :=
  let current := domain in
  err <- probeHttps dialer current debug ;;
  x <- match err with
       | Some e =>
           (if debug then Stderr (Error e ++ newline)%string else ret tt) ;;;
           let current := ("www." ++ domain)%string in
           err <- probeHttps dialer current debug ;;
           ret (current, err)
       | None => ret (current, err)
       end ;;
  let '(current, err) := x in
  match err with
  | Some e =>
      (if debug then Stderr (Error e ++ newline)%string else ret tt) ;;;
      Stdout ("http://" ++ domain ++ "/" ++ newline)%string
  | None =>
      Stdout ("https://" ++ current ++ "/" ++ newline)%string
  end.

End Program.

(* ================================================================== *)
(** * The worker pool of [RunE]

    The goroutines of [RunE] are modelled as a transition system.  The
    main goroutine (the producer) and each worker advance by atomic
    actions on the shared channel, the wait group and the world; an
    action that the Go runtime would block is not enabled.  A buffered
    channel of capacity [c] is a FIFO of at most [c] strings (for
    [c = 0] the pool has no worker, so a send never finds a receiver).
    A worker is busy from the receive of a domain to the end of the loop
    body; the effects of the body are appended to the world in one piece
    when it ends, so the calls of two bodies are not interleaved in the
    trace (the oracles are arbitrary, and each body only depends on the
    answers it gets itself). *)

(** Where the main goroutine stands. *)
Inductive Producer :=
| P_read (input : list string)              (* at [r.ReadLine()] *)
| P_send (t : string) (input : list string) (* at [ch <- string(t)] *)
| P_wait                                    (* [close(ch)] done, at [wg.Wait()] *)
| P_returned.                               (* [return nil] *)

(** Where a worker goroutine stands. *)
Inductive Worker :=
| W_recv                    (* at [for domain := range ch] *)
| W_busy (domain : string)  (* inside the loop body *)
| W_done.                   (* loop left, deferred [wg.Done()] ran *)

Record Pool := {
  producer : Producer;
  ch_buf : list string;
  ch_cap : Z;
  ch_closed : bool;
  wg : Z;
  workers : list Worker;
  world : World
}.

(** [r.ReadLine()]: the input is the sequence of byte strings that the
    successive calls return (a line without its end-of-line bytes, or a
    piece of a line longer than the reader's buffer, which the loop takes
    for a domain like any other); at the end of the input it returns no
    bytes.  [RunE] is modelled from the point where [os.Open] has
    succeeded. *)
Definition ReadLine (input : list string) : string * list string :=
  match input with
  | [] => (EmptyString, [])
  | t :: rest => (t, rest)
  end.

(** [&net.Dialer{Timeout: 10 * time.Second, FallbackDelay: -1}] *)
Definition new_dialer : Dialer :=
  {| Timeout := 10 * Second; FallbackDelay := -1 |}.

(** State after [make(chan string, *concurrency)] and the loop that
    starts the workers; [make] panics on a negative size. *)
Definition pool_init (concurrency : Z) (input : list string) : option Pool :=
  if concurrency <? 0 then None
  else Some {| producer := P_read input;
               ch_buf := [];
               ch_cap := concurrency;
               ch_closed := false;
               wg := Z.of_nat (Z.to_nat concurrency);
               workers := repeat W_recv (Z.to_nat concurrency);
               world := world0 |}.

Fixpoint set_worker (i : nat) (x : Worker) (l : list Worker) : list Worker :=
  match l, i with
  | [], _ => []
  | _ :: l', O => x :: l'
  | y :: l', S i' => y :: set_worker i' x l'
  end.

Inductive Action :=
| Act_read            (* producer: ReadLine, then break and close, or go on to send *)
| Act_send            (* producer: the channel send *)
| Act_recv (i : nat)  (* worker i: receive from the channel *)
| Act_work (i : nat)  (* worker i: run the loop body *)
| Act_exit (i : nat)  (* worker i: channel closed and empty, leave *)
| Act_join.           (* producer: wg.Wait() returns *)

Section Pool.

Variable env : Env.
Variable fuel : nat.
Variable debug : bool.

Definition fire (a : Action) (s : Pool) : option Pool :=
  match a with
  | Act_read =>
      match producer s with
      | P_read input =>
          let '(t, rest) := ReadLine input in
          if (String.length t =? 0)%nat
          then Some {| producer := P_wait; ch_buf := ch_buf s;
                       ch_cap := ch_cap s; ch_closed := true; wg := wg s;
                       workers := workers s; world := world s |}
          else Some {| producer := P_send t rest; ch_buf := ch_buf s;
                       ch_cap := ch_cap s; ch_closed := ch_closed s;
                       wg := wg s; workers := workers s; world := world s |}
      | _ => None
      end
  | Act_send =>
      match producer s with
      | P_send t rest =>
          if Z.of_nat (List.length (ch_buf s)) <? ch_cap s
          then Some {| producer := P_read rest; ch_buf := ch_buf s ++ [t];
                       ch_cap := ch_cap s; ch_closed := ch_closed s;
                       wg := wg s; workers := workers s; world := world s |}
          else None
      | _ => None
      end
  | Act_recv i =>
      match nth_error (workers s) i, ch_buf s with
      | Some W_recv, domain :: buf =>
          Some {| producer := producer s; ch_buf := buf;
                  ch_cap := ch_cap s; ch_closed := ch_closed s; wg := wg s;
                  workers := set_worker i (W_busy domain) (workers s);
                  world := world s |}
      | _, _ => None
      end
  | Act_work i =>
      match nth_error (workers s) i with
      | Some (W_busy domain) =>
          match classify env fuel new_dialer debug domain (world s) with
          | Returns _ w' =>
              Some {| producer := producer s; ch_buf := ch_buf s;
                      ch_cap := ch_cap s; ch_closed := ch_closed s;
                      wg := wg s;
                      workers := set_worker i W_recv (workers s);
                      world := w' |}
          | _ => None
          end
      | _ => None
      end
  | Act_exit i =>
      match nth_error (workers s) i, ch_buf s, ch_closed s with
      | Some W_recv, [], true =>
          Some {| producer := producer s; ch_buf := [];
                  ch_cap := ch_cap s; ch_closed := true; wg := wg s - 1;
                  workers := set_worker i W_done (workers s);
                  world := world s |}
      | _, _, _ => None
      end
  | Act_join =>
      match producer s with
      | P_wait =>
          if wg s =? 0
          then Some {| producer := P_returned; ch_buf := ch_buf s;
                       ch_cap := ch_cap s; ch_closed := ch_closed s;
                       wg := wg s; workers := workers s; world := world s |}
          else None
      | _ => None
      end
  end.

(** Running a schedule, one action after the other. *)
Fixpoint run (sched : list Action) (s : Pool) : option Pool :=
  match sched with
  | [] => Some s
  | a :: sched' =>
      match fire a s with
      | Some s' => run sched' s'
      | None => None
      end
  end.

(** The states [RunE] can be in, started with the given flag and input. *)
Definition reachable (concurrency : Z) (input : list string) (s : Pool) : Prop :=
  exists s0 sched, pool_init concurrency input = Some s0 /\ run sched s0 = Some s.

End Pool.

(** The lines [RunE] sends to the workers: everything before the first
    empty line. *)
Fixpoint consumed (input : list string) : list string :=
  match input with
  | [] => []
  | t :: rest => if (String.length t =? 0)%nat then [] else t :: consumed rest
  end.

(** What a trace wrote to standard output and the DNS and TLS calls in it. *)
Definition stdout_of (tr : list Event) : list string :=
  flat_map (fun e => match e with EvStdout s => [s] | _ => [] end) tr.

Definition exchanges_of (tr : list Event) : list (Query * string) :=
  flat_map (fun e => match e with EvExchange q a => [(q, a)] | _ => [] end) tr.

Definition dials_of (tr : list Event) : list (string * string) :=
  flat_map (fun e => match e with EvDial _ _ a n => [(a, n)] | _ => [] end) tr.

Definition sleeps_of (tr : list Event) : list Z :=
  flat_map (fun e => match e with EvSleep d => [d] | _ => [] end) tr.

Definition is_network (e : Event) : bool :=
  match e with
  | EvExchange _ _ | EvDial _ _ _ _ | EvClose _ => true
  | _ => false
  end.

(** The three forms of a result URL for a domain; [Printf] ends each
    line with a newline. *)
Definition url_https (domain : string) : string :=
  ("https://" ++ domain ++ "/")%string.
Definition url_https_www (domain : string) : string :=
  ("https://www." ++ domain ++ "/")%string.
Definition url_http (domain : string) : string :=
  ("http://" ++ domain ++ "/")%string.

Definition result_line (domain printed : string) : Prop :=
  printed = (url_https domain ++ newline)%string \/
  printed = (url_https_www domain ++ newline)%string \/
  printed = (url_http domain ++ newline)%string.

Definition busy_count (ws : list Worker) : nat :=
  List.length (filter (fun x => match x with W_busy _ => true | _ => false end) ws).

(* ================================================================== *)
(** * Vocabulary of the statements *)

(** A world after [r] draws, [x] exchanges, [d] dials and the events [t]. *)
Definition advance (r x d : nat) (t : list Event) (w : World) : World :=
  {| n_rand := n_rand w + r; n_exchange := n_exchange w + x;
     n_dial := n_dial w + d; trace := trace w ++ t |}.

(** The server the [i]-th draw after [w] selects, and the answer the
    [i]-th exchange after [w] gets when it is sent there. *)
Definition pick (env : Env) (w : World) (i : nat) : string :=
  nth (Z.to_nat (Z.rem (Z.land (rand_src env (n_rand w + i)) (2 ^ 63 - 1))
                       (Z.of_nat (List.length Resolvers))))
      Resolvers EmptyString.

Definition attempt (env : Env) (w : World) (ma : Query) (i : nat) : ExchangeResult :=
  net_exchange env (n_exchange w + i) ma (pick env w i ++ ":53")%string.

(** The pause after [k] servers were tried. *)
Definition backoff (k : nat) : Z :=
  wrap64 (wrap64 (100 * Z.of_nat k) * Millisecond).

(** The loop of [resolve] leaves after attempt [i] (counted from 0) when
    [len] servers had been tried before the loop state it is run from. *)
Definition stops (env : Env) (w : World) (ma : Query) (len i : nat) : bool :=
  match err_of (attempt env w ma i) with None => true | Some _ => false end
  || (ResolverRetries <=? Z.of_nat (len + i + 1)).

(** The events of a run of the loop that tried the servers [tried]. *)
Fixpoint loop_trace (ma : Query) (len : nat) (tried : list string) : list Event :=
  match tried with
  | [] => []
  | [res] => [EvExchange ma (res ++ ":53")%string]
  | res :: rest =>
      EvExchange ma (res ++ ":53")%string :: EvSleep (backoff (S len))
        :: loop_trace ma (S len) rest
  end.

Definition closes_of (tr : list Event) : list nat :=
  flat_map (fun e => match e with EvClose c => [c] | _ => [] end) tr.

Definition stderr_of (tr : list Event) : list string :=
  flat_map (fun e => match e with EvStderr s => [s] | _ => [] end) tr.

(** The answer the [i]-th handshake after [w] gets when the addresses
    [ips] are dialled one after the other ([None] is a success). *)
Definition dial_at (env : Env) (w : World) (dialer : Dialer) (domain : string)
    (ips : list string) (i : nat) : option string :=
  net_dial env (n_dial w + i) dialer (nth i ips EmptyString ++ ":443")%string
           domain.

(** What a worker writes to standard error for an error [e]. *)
Definition logged (debug : bool) (e : error) : list Event :=
  if debug then [EvStderr (Error e ++ newline)%string] else [].

(** The error the handshake loop ends with when every address of [ips]
    fails: the one of the last address, or the error it started with. *)
Definition last_failure (env : Env) (w : World) (dialer : Dialer)
    (domain : string) (ips : list string) (lastErr : option error)
  : option error :=
  match ips with
  | [] => lastErr
  | _ :: _ =>
      match dial_at env w dialer domain ips (List.length ips - 1) with
      | Some e => Some (HandshakeFailure domain (last ips EmptyString) e)
      | None => None
      end
  end.

(** What the handshake loop writes after a successful handshake on
    connection [c] to [ip]. *)
Definition close_log (env : Env) (debug : bool) (domain ip : string) (c : nat)
  : list Event :=
  match net_close env c, debug with
  | Some err, true =>
      [EvStderr (domain ++ " on " ++ ip ++ ": error on close, " ++ err)%string]
  | _, _ => []
  end.

(** A stretch of trace in which the addresses [tried] were dialled, in
    this order, for [domain], and nothing else reached the network or
    standard output. *)
Definition handshakes_only (debug : bool) (domain : string)
    (tried : list string) (t : list Event) : Prop :=
  dials_of t = map (fun ip => ((ip ++ ":443")%string, domain)) tried /\
  exchanges_of t = [] /\ sleeps_of t = [] /\ stdout_of t = [] /\
  (debug = false -> stderr_of t = []).

(** A probe of [name] run from [w] succeeds, ending in [w2]: the
    resolution returns addresses and a handshake on one of them succeeds. *)
Definition probe_succeeds (env : Env) (fuel : nat) (dialer : Dialer)
    (debug : bool) (name : string) (w w2 : World) : Prop :=
  exists ips w1,
    resolve env fuel name w = Returns (ips, None) w1 /\
    probe_loop env dialer name debug None ips w1 = Returns None w2.

(** A probe of [name] run from [w] fails with [e], ending in [w2]: at the
    resolution, or at the handshakes. *)
Definition probe_fails (env : Env) (fuel : nat) (dialer : Dialer)
    (debug : bool) (name : string) (w : World) (e : error) (w2 : World) : Prop :=
  (exists ips, resolve env fuel name w = Returns (ips, Some e) w2) \/
  (exists ips w1,
     resolve env fuel name w = Returns (ips, None) w1 /\
     probe_loop env dialer name debug None ips w1 = Returns (Some e) w2).

(** ** Vocabulary of the pool *)

(** The domains the workers are working on, the workers that have not
    left their loop, and the domains the producer still has to send. *)
Definition busy_domains (ws : list Worker) : list string :=
  flat_map (fun x => match x with W_busy d => [d] | _ => [] end) ws.

Definition live_count (ws : list Worker) : nat :=
  List.length
    (filter (fun x => match x with W_done => false | _ => true end) ws).

Definition pending (p : Producer) : list string :=
  match p with
  | P_read input => consumed input
  | P_send t input => t :: consumed input
  | P_wait | P_returned => []
  end.

(** The number of actions a state still has in front of it. *)
Definition worker_measure (x : Worker) : nat :=
  match x with W_recv => 1 | W_busy _ => 2 | W_done => 0 end.

Definition producer_measure (p : Producer) : nat :=
  match p with
  | P_read input => 4 * List.length (consumed input) + 2
  | P_send _ input => 4 * List.length (consumed input) + 5
  | P_wait => 1
  | P_returned => 0
  end.

Definition pool_measure (s : Pool) : nat :=
  producer_measure (producer s) + 2 * List.length (ch_buf s)
  + list_sum (map worker_measure (workers s)).

(** What holds of every state of the pool started with [N] workers on
    [input]. *)
Record pool_inv (N : Z) (input : list string) (s : Pool) : Prop := {
  inv_cap : ch_cap s = N;
  inv_workers : Z.of_nat (List.length (workers s)) = N;
  inv_buf : Z.of_nat (List.length (ch_buf s)) <= N;
  inv_wg : wg s = Z.of_nat (live_count (workers s));
  inv_closed :
    ch_closed s = match producer s with
                  | P_wait | P_returned => true
                  | _ => false
                  end;
  inv_done : In W_done (workers s) -> ch_closed s = true /\ ch_buf s = [];
  inv_returned : producer s = P_returned -> wg s = 0;
  inv_account :
    exists processed,
      Forall2 result_line processed (stdout_of (trace (world s))) /\
      Permutation
        (processed ++ busy_domains (workers s) ++ ch_buf s
           ++ pending (producer s))
        (consumed input)
}.

(** The classification of a reply in the words of the specification:
    no answer record at all, no A record among them, or the addresses of
    the A records as they come.  [resolve] is compared with it below. *)
Definition spec_addresses (answer : list RR) : list string :=
  flat_map (fun rr => match rr with RR_A _ a => [IP_String a] | _ => [] end)
           answer.

Definition spec_reply_result (domain : string) (m : Msg)
  : list string * option error :=
  match Answer m with
  | [] => ([], Some (EmptyAnswer domain))
  | _ :: _ =>
      match spec_addresses (Answer m) with
      | [] => ([], Some (NoAddressRecord domain))
      | ips => (ips, None)
      end
  end.

(* ================================================================== *)
(** * Sample environments *)

(** 93.184.216.34 *)
Definition example_ip : IPv4 := {| o1 := x5d; o2 := xb8; o3 := xd8; o4 := x22 |}.

Definition reply_A : Msg :=
  {| Rcode := 0; Answer := [RR_A "example.com." example_ip] |}.

(** Every server answers with one A record, every handshake succeeds. *)
Definition env_up : Env :=
  {| rand_src := fun k => Z.of_nat k;
     net_exchange := fun _ _ _ => Reply reply_A;
     net_dial := fun _ _ _ _ => None;
     net_close := fun _ => None |}.

(** Nothing answers. *)
Definition env_down : Env :=
  {| rand_src := fun k => 3 * Z.of_nat k + 1;
     net_exchange := fun _ _ _ => Failed None "i/o timeout";
     net_dial := fun _ _ _ _ => Some "connection refused";
     net_close := fun _ => None |}.

(** The first four exchanges time out, the fifth is answered. *)
Definition env_flaky : Env :=
  {| rand_src := fun k => - Z.of_nat k;
     net_exchange := fun k _ _ =>
       if (k <? 4)%nat then Failed None "i/o timeout" else Reply reply_A;
     net_dial := fun _ _ _ _ => None;
     net_close := fun _ => Some "use of closed network connection" |}.

(** The first handshake is refused, the later ones succeed; closing
    reports an error. *)
Definition env_second : Env :=
  {| rand_src := fun k => Z.of_nat k;
     net_exchange := fun _ _ _ => Reply reply_A;
     net_dial := fun k _ _ _ =>
       if (k =? 0)%nat then Some "connection refused" else None;
     net_close := fun _ => Some "use of closed network connection" |}.

(** Only names under [www.] have an A record. *)
Definition env_www : Env :=
  {| rand_src := fun k => 5 * Z.of_nat k;
     net_exchange := fun _ q _ =>
       match Questions q with
       | [qu] => if String.prefix "www." (Name qu)
                 then Reply reply_A
                 else Reply {| Rcode := 3; Answer := [] |}
       | _ => Failed None "malformed query"
       end;
     net_dial := fun _ _ _ _ => None;
     net_close := fun _ => None |}.

Definition sample_ips : list string := ["10.0.0.1"; "10.0.0.2"; "10.0.0.3"].

(** The worlds the samples end in. *)
Definition world_after {A} (o : Outcome A) : World :=
  match o with Returns _ w => w | _ => world0 end.

Definition world_up_probe : World :=
  Eval vm_compute in
    world_after (probeHttps env_up 5 new_dialer "example.com" false world0).

Definition world_up_resolved : World :=
  Eval vm_compute in world_after (resolve env_up 5 "example.com" world0).

Definition world_www_bare : World :=
  Eval vm_compute in
    world_after (probeHttps env_www 5 new_dialer "example.com" false world0).

Definition world_www_resolved : World :=
  Eval vm_compute in
    world_after (resolve env_www 5 "www.example.com" world_www_bare).

Definition world_www_probe : World :=
  Eval vm_compute in
    world_after (probeHttps env_www 5 new_dialer "www.example.com" false
                   world_www_bare).

Definition world_down_bare : World :=
  Eval vm_compute in
    world_after (probeHttps env_down 5 new_dialer "deadsite.test" true world0).

Definition error_down_bare : error :=
  ResolutionTimeout 5
    ["8.8.4.4"; "9.9.9.9"; "208.67.220.220"; "1.1.1.1"; "149.112.112.112"]
    "deadsite.test".

Definition error_down_www : error :=
  ResolutionTimeout 5
    ["8.8.8.8"; "1.0.0.1"; "208.67.222.222"; "8.8.4.4"; "9.9.9.9"]
    "www.deadsite.test".

Definition world_down_www : World :=
  Eval vm_compute in
    world_after (probeHttps env_down 5 new_dialer "www.deadsite.test" true
                   (advance 0 0 0 (logged true error_down_bare) world_down_bare)).

(** A run of the pool with two workers on three domains, stopped while
    both workers are busy and the third domain waits in the channel. *)
Definition sample_input : list string :=
  ["example.com"; "example.org"; "example.net"; ""; "ignored.test"].

Definition pool_stuck : Pool :=
  {| producer := P_returned; ch_buf := []; ch_cap := 0; ch_closed := true;
     wg := 0; workers := []; world := world0 |}.

Definition sample_sched : list Action :=
  [Act_read; Act_send; Act_read; Act_send; Act_recv 1; Act_recv 0;
   Act_read; Act_send].

Definition sample_pool : Pool :=
  Eval vm_compute in
    match pool_init 2 sample_input with
    | Some s0 =>
        match run env_up 5 false sample_sched s0 with
        | Some s => s
        | None => pool_stuck
        end
    | None => pool_stuck
    end.


(** The pool started without any worker, after the first line was read. *)
Definition pool_no_worker : Pool :=
  Eval vm_compute in
    match pool_init 0 sample_input with
    | Some s0 =>
        match run env_up 5 false [Act_read] s0 with
        | Some s => s
        | None => pool_stuck
        end
    | None => pool_stuck
    end.

(* ================================================================== *)
(** * Vocabulary of the further properties *)

(** The sum of a list of durations. *)
Definition total (l : list Z) : Z := fold_right Z.add 0 l.

(** The events [resolve] may cause for [domain]: the A question for
    [domain.] sent to port 53 of a server of the pool, and sleeps. *)
Definition dns_event (domain : string) (e : Event) : Prop :=
  match e with
  | EvExchange q a =>
      q = query_A domain /\
      exists res, In res Resolvers /\ a = (res ++ ":53")%string
  | EvSleep _ => True
  | _ => False
  end.

(** In the stretch [t] a handshake for [name] succeeded and the
    connection was closed. *)
Definition handshake_ok (env : Env) (dialer : Dialer) (name : string)
    (t : list Event) : Prop :=
  exists ip k,
    In (EvDial dialer "tcp" (ip ++ ":443")%string name) t /\
    In (EvClose k) t /\
    net_dial env k dialer (ip ++ ":443")%string name = None.

(** With a single worker the domains keep their order on the way from
    the input to the output. *)
Definition ordered_inv (input : list string) (s : Pool) : Prop :=
  List.length (workers s) = 1%nat /\
  exists processed,
    Forall2 result_line processed (stdout_of (trace (world s))) /\
    processed ++ busy_domains (workers s) ++ ch_buf s ++ pending (producer s)
    = consumed input.

(** The first four exchanges time out; the fifth comes back as a packet
    that fails to decode completely. *)
Definition env_garbled : Env :=
  {| rand_src := fun k => 7 * Z.of_nat k;
     net_exchange := fun k _ _ =>
       if (k <? 4)%nat then Failed None "i/o timeout"
       else Failed (Some reply_A) "dns: overflow unpacking uint16";
     net_dial := fun _ _ _ _ => None;
     net_close := fun _ => None |}.

Definition world_down_resolved : World :=
  Eval vm_compute in world_after (resolve env_down 5 "deadsite.test" world0).

Definition world_garbled_resolved : World :=
  Eval vm_compute in world_after (resolve env_garbled 5 "example.com" world0).

Definition world_second_resolved : World :=
  Eval vm_compute in world_after (resolve env_second 5 "example.com" world0).

Definition world_second_probe : World :=
  Eval vm_compute in
    world_after (probeHttps env_second 5 new_dialer "example.com" false world0).

Definition world_up_classify : World :=
  Eval vm_compute in
    world_after (classify env_up 5 new_dialer false "example.com" world0).

(** Without workers nothing ever leaves the producer. *)
Definition no_worker_inv (input : list string) (s : Pool) : Prop :=
  workers s = [] /\ world s = world0 /\ ch_buf s = [] /\ ch_cap s = 0 /\
  wg s = 0 /\
  (producer s = P_read input \/
   (exists t rest, producer s = P_send t rest /\ consumed input <> []) \/
   ((producer s = P_wait \/ producer s = P_returned) /\ consumed input = [])).

(** A complete run of the pool with a single worker. *)
Definition serial_sched : list Action :=
  [Act_read; Act_send; Act_recv 0; Act_work 0;
   Act_read; Act_send; Act_recv 0; Act_work 0;
   Act_read; Act_send; Act_recv 0; Act_work 0;
   Act_read; Act_exit 0; Act_join].

Definition serial_pool : Pool :=
  Eval vm_compute in
    match pool_init 1 sample_input with
    | Some s0 =>
        match run env_www 5 false serial_sched s0 with
        | Some s => s
        | None => pool_stuck
        end
    | None => pool_stuck
    end.

(** The handshake error of the [i]-th address of [ips], dialled from
    [w] on, and the line a worker or the handshake loop writes for an
    error in debug mode. *)
Definition failure_at (env : Env) (w : World) (dialer : Dialer)
    (domain : string) (ips : list string) (i : nat) : error :=
  HandshakeFailure domain (nth i ips EmptyString)
    (match dial_at env w dialer domain ips i with
     | Some cause => cause
     | None => EmptyString
     end).

Definition err_lines (e : option error) : list string :=
  match e with
  | Some e => [(Error e ++ newline)%string]
  | None => []
  end.

(** Two A records behind a CNAME; every handshake is refused. *)
Definition reply_two : Msg :=
  {| Rcode := 0;
     Answer := [RR_CNAME "example.com." "edge.example.net.";
                RR_A "edge.example.net." example_ip;
                RR_A "edge.example.net."
                     {| o1 := x5d; o2 := xb8; o3 := xd8; o4 := x23 |}] |}.

Definition env_refused : Env :=
  {| rand_src := fun k => 2 * Z.of_nat k;
     net_exchange := fun _ _ _ => Reply reply_two;
     net_dial := fun k _ _ _ =>
       if (k =? 0)%nat then Some "connection refused" else Some "i/o timeout";
     net_close := fun _ => None |}.

Definition world_refused_probe : World :=
  Eval vm_compute in
    world_after (probeHttps env_refused 5 new_dialer "example.com" true world0).

(* ================================================================== *)
(** * Proofs *)

(** ** Worlds *)

Lemma advance_0 (w : World) : advance 0 0 0 [] w = w.
Proof.
  destruct w; unfold advance; simpl.
  now rewrite !Nat.add_0_r, app_nil_r.
Qed.

Lemma advance_advance r1 x1 d1 t1 r2 x2 d2 t2 w :
  advance r2 x2 d2 t2 (advance r1 x1 d1 t1 w)
  = advance (r1 + r2) (x1 + x2) (d1 + d2) (t1 ++ t2) w.
Proof.
  unfold advance; simpl. f_equal; try lia. now rewrite app_assoc.
Qed.

Lemma emit_spec e w : emit e w = Returns tt (advance 0 0 0 [e] w).
Proof. unfold emit, advance. now rewrite !Nat.add_0_r. Qed.

Lemma bind_Returns {A B} (m : M A) (k : A -> M B) w a w' :
  m w = Returns a w' -> bind m k w = k a w'.
Proof. intros H. unfold bind. now rewrite H. Qed.

(** ** [resolver] *)

Lemma rand_Int_range z : 0 <= Z.land z (2 ^ 63 - 1) < 2 ^ 63.
Proof.
  change (2 ^ 63 - 1) with (Z.ones 63).
  rewrite Z.land_ones by lia. apply Z.mod_pos_bound. lia.
Qed.

Lemma rand_index_range z :
  0 <= Z.rem (Z.land z (2 ^ 63 - 1)) (Z.of_nat (List.length Resolvers)) < 8.
Proof.
  pose proof (rand_Int_range z) as H.
  change (Z.of_nat (List.length Resolvers)) with 8.
  rewrite Z.rem_mod_nonneg by lia. apply Z.mod_pos_bound. lia.
Qed.

Lemma pick_in_Resolvers env w i : In (pick env w i) Resolvers.
Proof.
  unfold pick. apply nth_In.
  pose proof (rand_index_range (rand_src env (n_rand w + i))) as H.
  change (List.length Resolvers) with 8%nat in *. lia.
Qed.

Lemma resolver_spec env w :
  resolver env w = Returns (pick env w 0) (advance 1 0 0 [] w).
Proof.
  unfold resolver, bind, rand_Int, index, pick.
  rewrite Nat.add_0_r.
  pose proof (rand_index_range (rand_src env (n_rand w))) as H.
  set (i := Z.rem _ _) in *.
  assert (Hlen : Z.of_nat (List.length Resolvers) = 8) by reflexivity.
  rewrite Hlen.
  destruct (i <? 0) eqn:E1; [lia|].
  destruct (8 <=? i) eqn:E2; [lia|]. simpl orb. cbv iota.
  destruct (nth_error Resolvers (Z.to_nat i)) as [s|] eqn:E3.
  - rewrite (nth_error_nth _ _ _ E3). unfold ret, advance. simpl.
    now rewrite Nat.add_1_r, !Nat.add_0_r, app_nil_r.
  - apply nth_error_None in E3. change (List.length Resolvers) with 8%nat in E3. lia.
Qed.

(** ** The retry loop *)

Lemma pick_shift env w i r x d t :
  pick env (advance r x d t w) i = pick env w (r + i).
Proof. unfold pick, advance; simpl. now rewrite Nat.add_assoc. Qed.

Lemma attempt_shift env w ma i r t :
  attempt env (advance r r 0 t w) ma i = attempt env w ma (r + i).
Proof.
  unfold attempt. rewrite pick_shift. unfold advance; simpl.
  now rewrite Nat.add_assoc.
Qed.

Lemma stops_shift env w ma len i t :
  stops env (advance 1 1 0 t w) ma (S len) i = stops env w ma len (S i).
Proof.
  unfold stops. rewrite attempt_shift.
  replace (S len + i + 1)%nat with (len + S i + 1)%nat by lia. reflexivity.
Qed.

Lemma Exchange_spec env ma a w :
  Exchange env ma a w
  = Returns (net_exchange env (n_exchange w) ma a)
            (advance 0 1 0 [EvExchange ma a] w).
Proof.
  unfold Exchange, advance. now rewrite !Nat.add_0_r, Nat.add_1_r.
Qed.

(** One iteration of the loop, unfolded. *)
Lemma resolve_loop_step env n ma resolvers w :
  resolve_loop env (S n) ma resolvers w =
  let res := pick env w 0 in
  let w1 := advance 1 1 0 [EvExchange ma (res ++ ":53")%string] w in
  if stops env w ma (List.length resolvers) 0
  then Returns (in_of (attempt env w ma 0), resolvers ++ [res]) w1
  else resolve_loop env n ma (resolvers ++ [res])
         (advance 0 0 0 [EvSleep (backoff (S (List.length resolvers)))] w1).
Proof.
  cbn [resolve_loop]. unfold bind at 1. rewrite resolver_spec.
  unfold bind at 1. rewrite Exchange_spec.
  rewrite advance_advance. simpl Nat.add. simpl app.
  unfold stops, attempt. rewrite !Nat.add_0_r.
  rewrite length_app. simpl List.length.
  replace (n_exchange (advance 1 0 0 [] w)) with (n_exchange w)
    by (unfold advance; simpl; lia).
  destruct (_ || _) eqn:E.
  - reflexivity.
  - unfold bind, Sleep. rewrite emit_spec. cbv zeta.
    unfold backoff. now rewrite Nat.add_1_r.
Qed.

Lemma picks_shift env w t k :
  map (pick env (advance 1 1 0 t w)) (seq 0 k) = map (pick env w) (seq 1 k).
Proof.
  rewrite <- seq_shift, map_map. apply map_ext. intros a.
  now rewrite pick_shift.
Qed.

Lemma loop_trace_cons ma len a b rest :
  loop_trace ma len (a :: b :: rest)
  = [EvExchange ma (a ++ ":53")%string; EvSleep (backoff (S len))]
      ++ loop_trace ma (S len) (b :: rest).
Proof. reflexivity. Qed.

(** The loop leaves at the first attempt at which its exit test holds. *)
Lemma resolve_loop_spec env ma : forall j n resolvers w,
  (j < n)%nat ->
  (forall i, (i < j)%nat -> stops env w ma (List.length resolvers) i = false) ->
  stops env w ma (List.length resolvers) j = true ->
  let tried := map (pick env w) (seq 0 (S j)) in
  resolve_loop env n ma resolvers w
  = Returns (in_of (attempt env w ma j), resolvers ++ tried)
            (advance (S j) (S j) 0
               (loop_trace ma (List.length resolvers) tried) w).
Proof.
  induction j as [|j IH]; intros n resolvers w Hn Hbefore Hstop tried.
  - destruct n as [|n]; [lia|].
    rewrite resolve_loop_step. cbv zeta. rewrite Hstop. reflexivity.
  - destruct n as [|n]; [lia|].
    rewrite resolve_loop_step. cbv zeta.
    rewrite (Hbefore 0%nat) by lia.
    rewrite advance_advance. simpl Nat.add. simpl app.
    set (t1 := [EvExchange ma _; _]).
    assert (Hlen : List.length (resolvers ++ [pick env w 0])
                   = S (List.length resolvers))
      by (rewrite length_app; simpl; lia).
    rewrite (IH n (resolvers ++ [pick env w 0]) (advance 1 1 0 t1 w)).
    + rewrite attempt_shift, advance_advance, Hlen, picks_shift.
      subst tried. rewrite <- (cons_seq (S j) 0).
      cbn [map]. rewrite <- app_assoc. cbn [app].
      rewrite <- (cons_seq j 1). cbn [map].
      rewrite loop_trace_cons. reflexivity.
    + lia.
    + intros i Hi. rewrite Hlen, stops_shift. apply Hbefore. lia.
    + rewrite Hlen, stops_shift. exact Hstop.
Qed.

Lemma resolve_loop_out_of_fuel env ma : forall n resolvers w,
  (forall i, (i < n)%nat -> stops env w ma (List.length resolvers) i = false) ->
  resolve_loop env n ma resolvers w = OutOfFuel.
Proof.
  induction n as [|n IH]; intros resolvers w Hno.
  - reflexivity.
  - rewrite resolve_loop_step. cbv zeta. rewrite (Hno 0%nat) by lia.
    rewrite advance_advance. apply IH. intros i Hi.
    rewrite length_app. simpl List.length. rewrite Nat.add_1_r.
    simpl Nat.add. rewrite stops_shift. apply Hno. lia.
Qed.

(** A test that holds at [n] holds for a first time at or before [n]. *)
Lemma first_true (p : nat -> bool) : forall n,
  p n = true ->
  exists j, (j <= n)%nat /\ p j = true /\ forall i, (i < j)%nat -> p i = false.
Proof.
  induction n as [n IH] using lt_wf_ind. intros Hn.
  destruct (existsb p (seq 0 n)) eqn:E.
  - apply existsb_exists in E. destruct E as [k [Hk Hpk]].
    apply in_seq in Hk.
    destruct (IH k ltac:(lia) Hpk) as [j [Hj [Hpj Hmin]]].
    exists j. repeat split; auto. lia.
  - exists n. repeat split; auto. intros i Hi.
    destruct (p i) eqn:Epi; auto.
    assert (existsb p (seq 0 n) = true) as Hc.
    { apply existsb_exists. exists i. split; auto. apply in_seq. lia. }
    congruence.
Qed.

Lemma stops_at_ceiling env w ma : stops env w ma 0 4 = true.
Proof. unfold stops. apply orb_true_r. Qed.

Lemma first_stop env w ma :
  exists j, (j <= 4)%nat /\ stops env w ma 0 j = true /\
            forall i, (i < j)%nat -> stops env w ma 0 i = false.
Proof. apply (first_true (stops env w ma 0) 4), stops_at_ceiling. Qed.

(** A [Returns] of the loop pins down the attempt it left at. *)
Lemma resolve_loop_inv env ma n w r w' :
  resolve_loop env n ma [] w = Returns r w' ->
  exists j, (j <= 4)%nat /\ (j < n)%nat /\
    stops env w ma 0 j = true /\
    (forall i, (i < j)%nat -> stops env w ma 0 i = false) /\
    r = (in_of (attempt env w ma j), map (pick env w) (seq 0 (S j))) /\
    w' = advance (S j) (S j) 0
           (loop_trace ma 0 (map (pick env w) (seq 0 (S j)))) w.
Proof.
  intros H. destruct (first_stop env w ma) as [j [Hj [Hs Hb]]].
  destruct (Nat.lt_ge_cases j n) as [Hlt|Hge].
  - pose proof (resolve_loop_spec env ma j n [] w Hlt Hb Hs) as Hspec.
    cbv zeta in Hspec. simpl app in Hspec. simpl List.length in Hspec.
    rewrite Hspec in H. inversion H; subst.
    exists j. repeat split; auto.
  - rewrite resolve_loop_out_of_fuel in H; [discriminate|].
    intros i Hi. apply Hb. simpl in Hi. lia.
Qed.

(** ** Projections of the loop's events *)

Lemma exchanges_of_app t1 t2 :
  exchanges_of (t1 ++ t2) = exchanges_of t1 ++ exchanges_of t2.
Proof. unfold exchanges_of. apply flat_map_app. Qed.

Lemma sleeps_of_app t1 t2 : sleeps_of (t1 ++ t2) = sleeps_of t1 ++ sleeps_of t2.
Proof. unfold sleeps_of. apply flat_map_app. Qed.

Lemma stdout_of_app t1 t2 : stdout_of (t1 ++ t2) = stdout_of t1 ++ stdout_of t2.
Proof. unfold stdout_of. apply flat_map_app. Qed.

Lemma dials_of_app t1 t2 : dials_of (t1 ++ t2) = dials_of t1 ++ dials_of t2.
Proof. unfold dials_of. apply flat_map_app. Qed.

Lemma loop_trace_exchanges ma : forall tried len,
  exchanges_of (loop_trace ma len tried)
  = map (fun res => (ma, (res ++ ":53")%string)) tried.
Proof.
  induction tried as [|a [|b rest] IH]; intros len.
  - reflexivity.
  - reflexivity.
  - rewrite loop_trace_cons, exchanges_of_app, IH. reflexivity.
Qed.

Lemma loop_trace_sleeps ma : forall tried len,
  sleeps_of (loop_trace ma len tried)
  = map backoff (seq (S len) (List.length tried - 1)).
Proof.
  induction tried as [|a [|b rest] IH]; intros len.
  - reflexivity.
  - reflexivity.
  - rewrite loop_trace_cons, sleeps_of_app, IH.
    cbn [List.length]. rewrite !Nat.sub_succ, Nat.sub_0_r.
    reflexivity.
Qed.

Lemma loop_trace_no_dial ma : forall tried len,
  dials_of (loop_trace ma len tried) = [] /\
  stdout_of (loop_trace ma len tried) = [].
Proof.
  induction tried as [|a [|b rest] IH]; intros len; try (split; reflexivity).
  rewrite loop_trace_cons, dials_of_app, stdout_of_app.
  destruct (IH (S len)) as [-> ->]. split; reflexivity.
Qed.

Lemma backoff_linear k :
  (k <= 5)%nat -> backoff k = 100 * Z.of_nat k * Millisecond.
Proof.
  intros Hk. unfold backoff, wrap64, Millisecond.
  assert (0 <= Z.of_nat k <= 5) as Hz by lia.
  rewrite (Z.mod_small (100 * Z.of_nat k + 2 ^ 63)) by lia.
  replace (100 * Z.of_nat k + 2 ^ 63 - 2 ^ 63) with (100 * Z.of_nat k) by lia.
  rewrite Z.mod_small by lia. lia.
Qed.

Lemma rand_uniform i r :
  0 <= i < 8 -> 0 <= r < 2 ^ 63 ->
  (Z.rem r (Z.of_nat (List.length Resolvers)) = i
   <-> exists q, 0 <= q < 2 ^ 60 /\ r = 8 * q + i).
Proof.
  intros Hi Hr. change (Z.of_nat (List.length Resolvers)) with 8.
  rewrite Z.rem_mod_nonneg by lia.
  pose proof (Z.div_mod r 8 ltac:(lia)) as Hdm.
  pose proof (Z.mod_pos_bound r 8 ltac:(lia)) as Hm.
  split.
  - intros E. exists (r / 8). split; [|lia].
    split; [apply Z.div_pos; lia|].
    apply Z.div_lt_upper_bound; lia.
  - intros [q [Hq ->]].
    rewrite Z.add_comm, Z.mul_comm, Z.mod_add by lia.
    apply Z.mod_small. lia.
Qed.

Lemma Resolvers_NoDup : NoDup Resolvers.
Proof.
  unfold Resolvers.
  repeat (constructor; [simpl; intuition discriminate|]). constructor.
Qed.

Lemma picks_in_Resolvers env w l :
  Forall (fun s => In s Resolvers) (map (pick env w) l).
Proof.
  apply Forall_forall. intros s Hs. apply in_map_iff in Hs.
  destruct Hs as [i [<- _]]. apply pick_in_Resolvers.
Qed.

(** ** [resolve] *)

Lemma A_records_spec answer : A_records answer = spec_addresses answer.
Proof.
  induction answer as [|[h a|h t|h t] rest IH]; simpl; now rewrite ?IH.
Qed.

Lemma resolve_after_loop env fuel domain w in_ tried w1 :
  resolve_loop env fuel (query_A domain) [] w = Returns (in_, tried) w1 ->
  resolve env fuel domain w
  = Returns (match in_ with
             | None => ([], Some (ResolutionTimeout (List.length tried) tried domain))
             | Some m => spec_reply_result domain m
             end) w1.
Proof.
  intros H. unfold resolve. cbv zeta. rewrite (bind_Returns _ _ _ _ _ H).
  destruct in_ as [m|]; [|reflexivity].
  unfold spec_reply_result. rewrite A_records_spec.
  destruct (Answer m) as [|rr rest]; [reflexivity|].
  cbn [List.length Nat.eqb].
  destruct (spec_addresses (rr :: rest)); reflexivity.
Qed.

Lemma resolve_Returns_inv env fuel domain w r w' :
  resolve env fuel domain w = Returns r w' ->
  exists in_ tried,
    resolve_loop env fuel (query_A domain) [] w = Returns (in_, tried) w'.
Proof.
  intros H.
  destruct (resolve_loop env fuel (query_A domain) [] w) as [[in_ tried] w1| |] eqn:E.
  - rewrite (resolve_after_loop _ _ _ _ _ _ _ E) in H. inversion H; subst.
    now exists in_, tried.
  - unfold resolve, bind in H. cbv zeta in H. rewrite E in H. discriminate.
  - unfold resolve, bind in H. cbv zeta in H. rewrite E in H. discriminate.
Qed.

Lemma spec_reply_result_nonempty domain m ips :
  spec_reply_result domain m = (ips, None) -> ips <> [].
Proof.
  unfold spec_reply_result. destruct (Answer m); [discriminate|].
  destruct (spec_addresses (r :: l)); [discriminate|].
  intros H. inversion H. discriminate.
Qed.

Lemma spec_reply_result_not_timeout domain m ips n tried d :
  spec_reply_result domain m <> (ips, Some (ResolutionTimeout n tried d)).
Proof.
  unfold spec_reply_result. destruct (Answer m); [discriminate|].
  destruct (spec_addresses (r :: l)); discriminate.
Qed.

(** With a budget of five iterations the loop always returns, after at
    most five attempts. *)
Lemma resolve_loop_total env ma fuel w :
  (5 <= fuel)%nat ->
  exists j, (j <= 4)%nat /\
    stops env w ma 0 j = true /\
    (forall i, (i < j)%nat -> stops env w ma 0 i = false) /\
    resolve_loop env fuel ma [] w
    = Returns (in_of (attempt env w ma j), map (pick env w) (seq 0 (S j)))
              (advance (S j) (S j) 0
                 (loop_trace ma 0 (map (pick env w) (seq 0 (S j)))) w).
Proof.
  intros Hf. destruct (first_stop env w ma) as [j [Hj [Hs Hb]]].
  exists j. repeat split; auto.
  apply (resolve_loop_spec env ma j fuel [] w); auto. lia.
Qed.

Lemma stops_of_err env w ma i :
  (i < 4)%nat -> err_of (attempt env w ma i) <> None ->
  stops env w ma 0 i = false.
Proof.
  intros Hi He. unfold stops.
  destruct (err_of (attempt env w ma i)); [|congruence].
  simpl. apply Z.leb_gt. unfold ResolverRetries. lia.
Qed.

Lemma stops_of_reply env w ma len i m :
  attempt env w ma i = Reply m -> stops env w ma len i = true.
Proof. intros H. unfold stops. now rewrite H. Qed.

(** ** Claims on the resolver *)

(** C4. [resolve] always returns once the loop is granted
    [ResolverRetries] iterations, after at least one and at most five
    exchanges; when every one of the five attempts ends in an error and
    the last one leaves no message, the result is the retry-exhaustion
    error, which reports the five servers that were queried. *)
Theorem resolve_bounded_retries env fuel domain w :
  (Z.to_nat ResolverRetries <= fuel)%nat ->
  exists ips err w' t,
    resolve env fuel domain w = Returns (ips, err) w' /\
    trace w' = trace w ++ t /\
    (1 <= List.length (exchanges_of t) <= 5)%nat /\
    ((forall i, (i < 5)%nat ->
        err_of (attempt env w (query_A domain) i) <> None) ->
     in_of (attempt env w (query_A domain) 4) = None ->
     exists tried,
       List.length tried = 5%nat /\
       ips = [] /\
       err = Some (ResolutionTimeout 5 tried domain) /\
       map snd (exchanges_of t) = map (fun res => (res ++ ":53")%string) tried).
Proof.
  intros Hf. change (Z.to_nat ResolverRetries) with 5%nat in Hf.
  destruct (resolve_loop_total env (query_A domain) fuel w Hf)
    as [j [Hj [Hs [Hb Hloop]]]].
  pose proof (resolve_after_loop _ _ _ _ _ _ _ Hloop) as Hres.
  set (tried := map (pick env w) (seq 0 (S j))) in *.
  set (r := match in_of (attempt env w (query_A domain) j) with
            | Some m => spec_reply_result domain m
            | None => _ end) in *.
  exists (fst r), (snd r), (advance (S j) (S j) 0 (loop_trace (query_A domain) 0 tried) w),
         (loop_trace (query_A domain) 0 tried).
  split; [rewrite Hres; now destruct r|].
  split; [reflexivity|].
  split.
  - rewrite loop_trace_exchanges, length_map. subst tried.
    rewrite length_map, length_seq. lia.
  - intros Hall Hlast.
    assert (j = 4%nat) as ->.
    { destruct (Nat.eq_dec j 4) as [|Hne]; auto.
      assert (stops env w (query_A domain) 0 j = false) as Hc
        by (apply stops_of_err; [lia|apply Hall; lia]).
      congruence. }
    exists tried. subst r. rewrite Hlast.
    split; [reflexivity|]. split; [reflexivity|]. split; [reflexivity|].
    rewrite loop_trace_exchanges, map_map. reflexivity.
Qed.

Lemma resolve_bounded_retries_witness :
  exists ips err w' t,
    resolve env_down 5 "deadsite.test" world0 = Returns (ips, err) w' /\
    trace w' = trace world0 ++ t /\
    (1 <= List.length (exchanges_of t) <= 5)%nat /\
    ((forall i, (i < 5)%nat ->
        err_of (attempt env_down world0 (query_A "deadsite.test") i) <> None) ->
     in_of (attempt env_down world0 (query_A "deadsite.test") 4) = None ->
     exists tried,
       List.length tried = 5%nat /\
       ips = [] /\
       err = Some (ResolutionTimeout 5 tried "deadsite.test") /\
       map snd (exchanges_of t) = map (fun res => (res ++ ":53")%string) tried).
Proof.
  apply (resolve_bounded_retries env_down 5 "deadsite.test" world0).
  vm_compute. lia.
Defined.

(** C10. A retry-exhaustion error of [resolve] always carries exactly
    [ResolverRetries] servers, all of them from [Resolvers], and was
    preceded by exactly that many exchanges, one with each of them. *)
Theorem resolve_timeout_lists_five env fuel domain w ips n tried d w' :
  resolve env fuel domain w
    = Returns (ips, Some (ResolutionTimeout n tried d)) w' ->
  Z.of_nat n = ResolverRetries /\
  Z.of_nat (List.length tried) = ResolverRetries /\
  Forall (fun s => In s Resolvers) tried /\
  d = domain /\
  exists t, trace w' = trace w ++ t /\
            exchanges_of t
            = map (fun res => (query_A domain, (res ++ ":53")%string)) tried.
Proof.
  intros H.
  destruct (resolve_Returns_inv _ _ _ _ _ _ H) as [in_ [tr Hloop]].
  rewrite (resolve_after_loop _ _ _ _ _ _ _ Hloop) in H.
  destruct (resolve_loop_inv _ _ _ _ _ _ Hloop)
    as [j [Hj [Hn [Hs [Hb [Hr Hw]]]]]].
  injection Hr as -> ->.
  destruct (in_of (attempt env w (query_A domain) j)) as [m|] eqn:Ein.
  - injection H as Hres.
    exfalso. exact (spec_reply_result_not_timeout _ _ _ _ _ _ Hres).
  - assert (j = 4%nat) as ->.
    { unfold stops in Hs.
      destruct (attempt env w (query_A domain) j) as [m|p e]; [discriminate|].
      simpl in Hs. apply Z.leb_le in Hs. unfold ResolverRetries in Hs. lia. }
    injection H as Hips Hlen Htried Hd.
    change (map (pick env w) (seq 0 5) = tried) in Htried.
    subst ips n tried d.
    rewrite length_map, length_seq. unfold ResolverRetries.
    split; [reflexivity|]. split; [reflexivity|].
    split; [apply picks_in_Resolvers|]. split; [reflexivity|].
    eexists. split; [rewrite Hw; reflexivity|]. apply loop_trace_exchanges.
Qed.

Lemma resolve_timeout_lists_five_witness :
  Z.of_nat 5 = ResolverRetries /\
  Z.of_nat (List.length ["8.8.4.4"; "9.9.9.9"; "208.67.220.220"; "1.1.1.1";
                         "149.112.112.112"]) = ResolverRetries /\
  Forall (fun s => In s Resolvers)
         ["8.8.4.4"; "9.9.9.9"; "208.67.220.220"; "1.1.1.1"; "149.112.112.112"] /\
  "deadsite.test" = "deadsite.test" /\
  exists t,
    trace (advance 5 5 0
             (loop_trace (query_A "deadsite.test") 0
                ["8.8.4.4"; "9.9.9.9"; "208.67.220.220"; "1.1.1.1";
                 "149.112.112.112"]) world0) = trace world0 ++ t /\
    exchanges_of t
    = map (fun res => (query_A "deadsite.test", (res ++ ":53")%string))
          ["8.8.4.4"; "9.9.9.9"; "208.67.220.220"; "1.1.1.1"; "149.112.112.112"].
Proof.
  apply (resolve_timeout_lists_five env_down 5 "deadsite.test" world0 []).
  vm_compute. reflexivity.
Defined.

(** C5. Every attempt queries [Resolvers[r % 8]] for a fresh draw [r] of
    the 63-bit generator, and each of the eight distinct servers is
    selected by exactly [2^60] of the [2^63] possible draws.  When the
    attempts before attempt [j] (counted from 0, [j < 5]) end in an error
    and attempt [j] is answered or is the fifth, the loop makes exactly
    [j + 1] exchanges, sleeps [100ms * k] after the [k]-th failure for
    [k = 1..j] and nowhere else, and stops there; when attempt [j] is
    answered, [resolve] returns what that answer yields, so a success at
    the fifth attempt ([j = 4]) is returned. *)
Theorem resolve_retry_backoff env fuel domain w j :
  (Z.to_nat ResolverRetries <= fuel)%nat ->
  (j < 5)%nat ->
  (forall i, (i < j)%nat ->
     err_of (attempt env w (query_A domain) i) <> None) ->
  (j = 4%nat \/ err_of (attempt env w (query_A domain) j) = None) ->
  let ma := query_A domain in
  let tried := map (pick env w) (seq 0 (S j)) in
  (exists w' t,
     resolve_loop env fuel ma [] w
       = Returns (in_of (attempt env w ma j), tried) w' /\
     trace w' = trace w ++ t /\
     t = loop_trace ma 0 tried /\
     exchanges_of t = map (fun res => (ma, (res ++ ":53")%string)) tried /\
     sleeps_of t = map (fun k => 100 * Z.of_nat k * Millisecond) (seq 1 j) /\
     forall m, attempt env w ma j = Reply m ->
       resolve env fuel domain w = Returns (spec_reply_result domain m) w') /\
  Forall (fun s => In s Resolvers) tried /\
  NoDup Resolvers /\
  (forall i r, 0 <= i < 8 -> 0 <= r < 2 ^ 63 ->
     (Z.rem r (Z.of_nat (List.length Resolvers)) = i
      <-> exists q, 0 <= q < 2 ^ 60 /\ r = 8 * q + i)).
Proof.
  intros Hf Hj Hfail Hexit ma tried.
  change (Z.to_nat ResolverRetries) with 5%nat in Hf.
  split; [|split; [apply picks_in_Resolvers|split;
             [apply Resolvers_NoDup|intros i r; apply rand_uniform]]].
  assert (Hloop : resolve_loop env fuel ma [] w
                  = Returns (in_of (attempt env w ma j), tried)
                      (advance (S j) (S j) 0 (loop_trace ma 0 tried) w)).
  { apply (resolve_loop_spec env ma j fuel [] w).
    - lia.
    - intros i Hi. apply stops_of_err; [lia|]. apply Hfail, Hi.
    - destruct Hexit as [->|He]; [apply stops_at_ceiling|].
      unfold stops. subst ma. now rewrite He. }
  exists (advance (S j) (S j) 0 (loop_trace ma 0 tried) w), (loop_trace ma 0 tried).
  split; [exact Hloop|].
  split; [reflexivity|]. split; [reflexivity|].
  split; [apply loop_trace_exchanges|].
  split.
  - rewrite loop_trace_sleeps. subst tried.
    rewrite length_map, length_seq. simpl Nat.sub. rewrite Nat.sub_0_r.
    apply map_ext_in. intros k Hk. apply in_seq in Hk.
    apply backoff_linear. lia.
  - intros m Hm. rewrite Hm in Hloop.
    exact (resolve_after_loop _ _ _ _ _ _ _ Hloop).
Qed.

Lemma resolve_retry_backoff_witness :
  (exists w' t,
     resolve_loop env_flaky 5 (query_A "example.com") [] world0
       = Returns (in_of (attempt env_flaky world0 (query_A "example.com") 4),
                  map (pick env_flaky world0) (seq 0 5)) w' /\
     trace w' = trace world0 ++ t /\
     t = loop_trace (query_A "example.com") 0
           (map (pick env_flaky world0) (seq 0 5)) /\
     exchanges_of t
       = map (fun res => (query_A "example.com", (res ++ ":53")%string))
             (map (pick env_flaky world0) (seq 0 5)) /\
     sleeps_of t = map (fun k => 100 * Z.of_nat k * Millisecond) (seq 1 4) /\
     forall m, attempt env_flaky world0 (query_A "example.com") 4 = Reply m ->
       resolve env_flaky 5 "example.com" world0
         = Returns (spec_reply_result "example.com" m) w') /\
  Forall (fun s => In s Resolvers) (map (pick env_flaky world0) (seq 0 5)) /\
  NoDup Resolvers /\
  (forall i r, 0 <= i < 8 -> 0 <= r < 2 ^ 63 ->
     (Z.rem r (Z.of_nat (List.length Resolvers)) = i
      <-> exists q, 0 <= q < 2 ^ 60 /\ r = 8 * q + i)).
Proof.
  apply (resolve_retry_backoff env_flaky 5 "example.com" world0 4).
  - vm_compute. lia.
  - lia.
  - intros i Hi.
    destruct i as [|[|[|[|i]]]]; try (vm_compute; discriminate); lia.
  - right. reflexivity.
Defined.

(** C6. Once the loop has handed back a reply, [resolve] fails with the
    empty-answer error when the answer section is empty, with the
    no-A-record error when the section holds no A record, and otherwise
    returns, without an error, the non-empty list of the A records'
    addresses exactly as they follow one another in the answer section
    (each occurrence kept). *)
Theorem resolve_classifies_reply env fuel domain w m tried w' :
  resolve_loop env fuel (query_A domain) [] w = Returns (Some m, tried) w' ->
  resolve env fuel domain w = Returns (spec_reply_result domain m) w' /\
  (Answer m = [] ->
   resolve env fuel domain w = Returns ([], Some (EmptyAnswer domain)) w') /\
  (Answer m <> [] -> (forall h a, ~ In (RR_A h a) (Answer m)) ->
   resolve env fuel domain w = Returns ([], Some (NoAddressRecord domain)) w') /\
  (forall h a, In (RR_A h a) (Answer m) ->
   spec_addresses (Answer m) <> [] /\
   resolve env fuel domain w = Returns (spec_addresses (Answer m), None) w') /\
  (forall l1 l2, spec_addresses (l1 ++ l2)
                 = spec_addresses l1 ++ spec_addresses l2) /\
  (forall h a, spec_addresses [RR_A h a] = [IP_String a]).
Proof.
  intros Hloop.
  pose proof (resolve_after_loop _ _ _ _ _ _ _ Hloop) as Hres.
  cbv iota beta in Hres.
  split; [exact Hres|]. rewrite Hres. unfold spec_reply_result.
  split; [intros ->; reflexivity|].
  split; [|split; [|split; [intros; apply flat_map_app|reflexivity]]].
  - intros Hne Hno. destruct (Answer m) as [|rr rest] eqn:E; [congruence|].
    assert (spec_addresses (rr :: rest) = []) as ->; [|reflexivity].
    clear E Hne. induction (rr :: rest) as [|x l IH]; [reflexivity|].
    destruct x as [h a|h t|h t].
    + exfalso. apply (Hno h a). now left.
    + apply IH. intros h' a' Hin. apply (Hno h' a'). now right.
    + apply IH. intros h' a' Hin. apply (Hno h' a'). now right.
  - intros h a Hin.
    assert (In (IP_String a) (spec_addresses (Answer m))) as Hip.
    { unfold spec_addresses. apply in_flat_map. exists (RR_A h a).
      split; [exact Hin|now left]. }
    destruct (Answer m) as [|rr rest]; [destruct Hin|].
    destruct (spec_addresses (rr :: rest)) as [|ip ips]; [destruct Hip|].
    split; [discriminate|reflexivity].
Qed.

Lemma resolve_classifies_reply_witness :
  resolve env_up 5 "example.com" world0
    = Returns (spec_reply_result "example.com" reply_A)
              (advance 1 1 0 (loop_trace (query_A "example.com") 0 ["8.8.8.8"])
                       world0) /\
  resolve env_up 5 "example.com" world0
    = Returns (["93.184.216.34"], None)
              (advance 1 1 0 (loop_trace (query_A "example.com") 0 ["8.8.8.8"])
                       world0).
Proof.
  destruct (resolve_classifies_reply env_up 5 "example.com" world0 reply_A
              ["8.8.8.8"]
              (advance 1 1 0 (loop_trace (query_A "example.com") 0 ["8.8.8.8"])
                       world0) eq_refl)
    as [H1 [_ [_ [H4 _]]]].
  split; [exact H1|].
  exact (proj2 (H4 "example.com." example_ip (or_introl eq_refl))).
Defined.

(** ** The handshake loop *)

Lemma closes_of_app t1 t2 : closes_of (t1 ++ t2) = closes_of t1 ++ closes_of t2.
Proof. unfold closes_of. apply flat_map_app. Qed.

Lemma stderr_of_app t1 t2 : stderr_of (t1 ++ t2) = stderr_of t1 ++ stderr_of t2.
Proof. unfold stderr_of. apply flat_map_app. Qed.

Lemma DialWithDialer_spec env dialer network address name w :
  DialWithDialer env dialer network address name w
  = Returns (match net_dial env (n_dial w) dialer address name with
             | None => Conn (n_dial w)
             | Some e => DialErr e
             end)
            (advance 0 0 1 [EvDial dialer network address name] w).
Proof.
  unfold DialWithDialer, advance. now rewrite !Nat.add_0_r, Nat.add_1_r.
Qed.

Lemma Close_spec env c w :
  Close env c w = Returns (net_close env c) (advance 0 0 0 [EvClose c] w).
Proof. unfold Close, advance. now rewrite !Nat.add_0_r. Qed.

(** One iteration of the loop, unfolded. *)
Lemma probe_loop_cons env dialer domain debug lastErr ip rest w :
  probe_loop env dialer domain debug lastErr (ip :: rest) w =
  let said := match debug, lastErr with
              | true, Some e => [EvStderr (Error e ++ newline)%string]
              | _, _ => []
              end in
  let dial := EvDial dialer "tcp" (ip ++ ":443")%string domain in
  match net_dial env (n_dial w) dialer (ip ++ ":443")%string domain with
  | Some err =>
      probe_loop env dialer domain debug
        (Some (HandshakeFailure domain ip err)) rest
        (advance 0 0 1 (said ++ [dial]) w)
  | None =>
      Returns None
        (advance 0 0 1
           (said ++ [dial; EvClose (n_dial w)] ++
            match net_close env (n_dial w), debug with
            | Some err, true =>
                [EvStderr (domain ++ " on " ++ ip ++ ": error on close, " ++ err)%string]
            | _, _ => []
            end) w)
  end.
Proof.
  cbn [probe_loop]. cbv zeta.
  assert (Hsaid : forall (k : unit -> M (option error)),
    bind (match debug, lastErr with
          | true, Some e => Stderr (Error e ++ newline)%string
          | _, _ => ret tt
          end) k w
    = k tt (advance 0 0 0
              (match debug, lastErr with
               | true, Some e => [EvStderr (Error e ++ newline)%string]
               | _, _ => []
               end) w)).
  { intros k. unfold bind.
    destruct debug, lastErr as [e|]; unfold Stderr, ret;
      rewrite ?emit_spec, ?advance_0; reflexivity. }
  rewrite Hsaid. unfold bind at 1. rewrite DialWithDialer_spec.
  rewrite advance_advance.
  replace (n_dial (advance 0 0 0 _ w)) with (n_dial w)
    by (unfold advance; simpl; lia).
  simpl Nat.add.
  destruct (net_dial env (n_dial w) dialer (ip ++ ":443")%string domain) as [err|].
  - reflexivity.
  - unfold bind at 1. rewrite Close_spec, advance_advance.
    unfold bind, ret, Stderr.
    destruct (net_close env (n_dial w)) as [cerr|], debug;
      rewrite ?emit_spec, ?advance_advance; simpl Nat.add;
      rewrite <- ?app_assoc; simpl app; try rewrite app_nil_r; reflexivity.
Qed.

Lemma dial_at_shift env w dialer domain ip rest t i :
  dial_at env (advance 0 0 1 t w) dialer domain rest i
  = dial_at env w dialer domain (ip :: rest) (S i).
Proof.
  unfold dial_at, advance; simpl.
  now rewrite <- Nat.add_assoc.
Qed.

Lemma dial_at_0 env w dialer domain ip rest :
  dial_at env w dialer domain (ip :: rest) 0
  = net_dial env (n_dial w) dialer (ip ++ ":443")%string domain.
Proof. unfold dial_at. now rewrite Nat.add_0_r. Qed.

Lemma handshakes_only_cons debug domain lastErr dialer ip tried t :
  handshakes_only debug domain tried t ->
  handshakes_only debug domain (ip :: tried)
    ((match debug, lastErr with
      | true, Some e => [EvStderr (Error e ++ newline)%string]
      | _, _ => []
      end ++ [EvDial dialer "tcp" (ip ++ ":443")%string domain]) ++ t).
Proof.
  intros [Hd [Hx [Hs [Ho He]]]]. unfold handshakes_only.
  rewrite !dials_of_app, !exchanges_of_app, !sleeps_of_app, !stdout_of_app,
    !stderr_of_app, Hd, Hx, Hs, Ho.
  destruct debug, lastErr as [e|]; simpl; repeat split; auto;
    try discriminate; intros _; apply He; reflexivity.
Qed.

Lemma last_failure_cons env w dialer domain ip rest lastErr err t :
  dial_at env w dialer domain (ip :: rest) 0 = Some err ->
  last_failure env (advance 0 0 1 t w) dialer domain rest
    (Some (HandshakeFailure domain ip err))
  = last_failure env w dialer domain (ip :: rest) lastErr.
Proof.
  intros H0. unfold last_failure. destruct rest as [|x r].
  - simpl List.length. simpl Nat.sub. rewrite H0. reflexivity.
  - rewrite (dial_at_shift env w dialer domain ip).
    replace (S (List.length (x :: r) - 1)) with (List.length (ip :: x :: r) - 1)%nat
      by (simpl; lia).
    reflexivity.
Qed.

(** Every handshake fails: all addresses are dialled, the last error is
    returned. *)
Lemma probe_loop_all_fail env dialer domain debug : forall ips lastErr w,
  (forall i, (i < List.length ips)%nat ->
     dial_at env w dialer domain ips i <> None) ->
  exists t,
    probe_loop env dialer domain debug lastErr ips w
    = Returns (last_failure env w dialer domain ips lastErr)
              (advance 0 0 (List.length ips) t w) /\
    handshakes_only debug domain ips t /\
    closes_of t = [].
Proof.
  induction ips as [|ip rest IH]; intros lastErr w Hall.
  - exists []. rewrite advance_0. repeat split; reflexivity.
  - rewrite probe_loop_cons. cbv zeta.
    pose proof (Hall 0%nat ltac:(simpl; lia)) as H0.
    rewrite dial_at_0 in H0.
    destruct (net_dial env (n_dial w) dialer (ip ++ ":443")%string domain)
      as [err|] eqn:E; [|congruence].
    set (t1 := _ ++ [EvDial _ _ _ _]).
    destruct (IH (Some (HandshakeFailure domain ip err)) (advance 0 0 1 t1 w))
      as [t [Hrun [Hshape Hclose]]].
    { intros i Hi. rewrite (dial_at_shift env w dialer domain ip).
      apply Hall. simpl. lia. }
    exists (t1 ++ t). rewrite Hrun, advance_advance.
    rewrite (last_failure_cons env w dialer domain ip rest lastErr err)
      by (rewrite dial_at_0; exact E).
    split; [reflexivity|]. split.
    + subst t1. apply handshakes_only_cons, Hshape.
    + rewrite closes_of_app, Hclose. subst t1.
      destruct debug, lastErr; reflexivity.
Qed.

(** The handshakes on [pre] fail and the one on [ip] succeeds: the loop
    dials [pre] and [ip], closes the connection and returns nil, whatever
    the close returns; [post] is never dialled. *)
Lemma probe_loop_success env dialer domain debug ip post :
  forall pre lastErr w,
  (forall i, (i < List.length pre)%nat ->
     dial_at env w dialer domain (pre ++ ip :: post) i <> None) ->
  dial_at env w dialer domain (pre ++ ip :: post) (List.length pre) = None ->
  exists t,
    probe_loop env dialer domain debug lastErr (pre ++ ip :: post) w
    = Returns None
        (advance 0 0 (S (List.length pre))
           (t ++ [EvDial dialer "tcp" (ip ++ ":443")%string domain;
                  EvClose (n_dial w + List.length pre)]
              ++ close_log env debug domain ip (n_dial w + List.length pre))
           w) /\
    handshakes_only debug domain pre t /\
    closes_of t = [].
Proof.
  induction pre as [|a pre IH]; intros lastErr w Hpre Hok.
  - simpl app in *. simpl List.length in *. rewrite probe_loop_cons. cbv zeta.
    rewrite dial_at_0 in Hok. rewrite Hok.
    rewrite Nat.add_0_r.
    exists (match debug, lastErr with
            | true, Some e => [EvStderr (Error e ++ newline)%string]
            | _, _ => []
            end).
    split; [reflexivity|].
    split; [|destruct debug, lastErr; reflexivity].
    unfold handshakes_only.
    destruct debug, lastErr; simpl; repeat split; auto; discriminate.
  - simpl app in *. rewrite probe_loop_cons. cbv zeta.
    pose proof (Hpre 0%nat ltac:(simpl; lia)) as H0.
    rewrite dial_at_0 in H0.
    destruct (net_dial env (n_dial w) dialer (a ++ ":443")%string domain)
      as [err|] eqn:E; [|congruence].
    set (t1 := _ ++ [EvDial _ _ _ _]).
    destruct (IH (Some (HandshakeFailure domain a err)) (advance 0 0 1 t1 w))
      as [t [Hrun [Hshape Hclose]]].
    { intros i Hi. rewrite (dial_at_shift env w dialer domain a).
      apply (Hpre (S i)). simpl. lia. }
    { rewrite (dial_at_shift env w dialer domain a). exact Hok. }
    exists (t1 ++ t). rewrite Hrun, advance_advance.
    replace (n_dial (advance 0 0 1 t1 w) + List.length pre)%nat
      with (n_dial w + List.length (a :: pre))%nat
      by (unfold advance; simpl; lia).
    rewrite <- app_assoc. split; [reflexivity|]. split.
    + subst t1. apply handshakes_only_cons, Hshape.
    + rewrite closes_of_app, Hclose. subst t1.
      destruct debug, lastErr; reflexivity.
Qed.

(** The loop always returns, having dialled a prefix of [ips] and
    nothing else. *)
Lemma probe_loop_total env dialer domain debug : forall ips lastErr w,
  exists r k t,
    probe_loop env dialer domain debug lastErr ips w
    = Returns r (advance 0 0 k t w) /\
    (k <= List.length ips)%nat /\
    dials_of t = map (fun ip => ((ip ++ ":443")%string, domain)) (firstn k ips) /\
    exchanges_of t = [] /\ sleeps_of t = [] /\ stdout_of t = [].
Proof.
  induction ips as [|ip rest IH]; intros lastErr w.
  - exists lastErr, 0%nat, []. rewrite advance_0. repeat split; auto.
  - rewrite probe_loop_cons. cbv zeta.
    destruct (net_dial env (n_dial w) dialer (ip ++ ":443")%string domain)
      as [err|] eqn:E.
    + set (t1 := _ ++ [EvDial _ _ _ _]).
      destruct (IH (Some (HandshakeFailure domain ip err)) (advance 0 0 1 t1 w))
        as [r [k [t [Hrun [Hk [Hd [Hx [Hs Ho]]]]]]]].
      exists r, (S k), (t1 ++ t). rewrite Hrun, advance_advance.
      split; [reflexivity|]. split; [simpl; lia|].
      rewrite dials_of_app, exchanges_of_app, sleeps_of_app, stdout_of_app,
        Hd, Hx, Hs, Ho.
      subst t1. destruct debug, lastErr; repeat split; reflexivity.
    + eexists None, 1%nat, _. split; [reflexivity|].
      split; [simpl; lia|].
      rewrite dials_of_app, exchanges_of_app, sleeps_of_app, stdout_of_app.
      destruct debug, lastErr, (net_close env (n_dial w));
        repeat split; reflexivity.
Qed.

(** ** [probeHttps] *)

Lemma probeHttps_after_resolve env fuel dialer domain debug w ips err w1 :
  resolve env fuel domain w = Returns (ips, err) w1 ->
  probeHttps env fuel dialer domain debug w
  = match err with
    | Some e => Returns (Some e) w1
    | None => probe_loop env dialer domain debug None ips w1
    end.
Proof.
  intros H. unfold probeHttps. rewrite (bind_Returns _ _ _ _ _ H).
  destruct err; reflexivity.
Qed.

Lemma probeHttps_Returns_inv env fuel dialer domain debug w r w' :
  probeHttps env fuel dialer domain debug w = Returns r w' ->
  exists ips err w1, resolve env fuel domain w = Returns (ips, err) w1.
Proof.
  intros H. unfold probeHttps, bind in H.
  destruct (resolve env fuel domain w) as [[ips err] w1| |]; try discriminate.
  now exists ips, err, w1.
Qed.

Lemma resolve_total env fuel domain w :
  (5 <= fuel)%nat ->
  exists ips err n t,
    resolve env fuel domain w = Returns (ips, err) (advance n n 0 t w) /\
    dials_of t = [] /\ stdout_of t = [] /\
    (err = None -> ips <> []).
Proof.
  intros Hf.
  destruct (resolve_loop_total env (query_A domain) fuel w Hf)
    as [j [_ [_ [_ Hloop]]]].
  pose proof (resolve_after_loop _ _ _ _ _ _ _ Hloop) as Hres.
  set (r := match in_of _ with Some m => _ | None => _ end) in Hres.
  exists (fst r), (snd r), (S j), (loop_trace (query_A domain) 0
                                      (map (pick env w) (seq 0 (S j)))).
  split; [rewrite Hres; now destruct r|].
  destruct (loop_trace_no_dial (query_A domain)
              (map (pick env w) (seq 0 (S j))) 0) as [Hd Ho].
  split; [exact Hd|]. split; [exact Ho|].
  subst r. destruct (in_of (attempt env w (query_A domain) j)) as [m|].
  - intros He. apply (spec_reply_result_nonempty domain m).
    destruct (spec_reply_result domain m) as [a b]. simpl in *. now subst.
  - discriminate.
Qed.

Lemma probeHttps_total env fuel dialer domain debug w :
  (5 <= fuel)%nat ->
  exists r w' t,
    probeHttps env fuel dialer domain debug w = Returns r w' /\
    trace w' = trace w ++ t /\ stdout_of t = [].
Proof.
  intros Hf.
  destruct (resolve_total env fuel domain w Hf)
    as [ips [err [n [t1 [Hres [_ [Ho1 _]]]]]]].
  rewrite (probeHttps_after_resolve _ _ dialer _ debug _ _ _ _ Hres).
  destruct err as [e|].
  - exists (Some e), (advance n n 0 t1 w), t1. now repeat split.
  - destruct (probe_loop_total env dialer domain debug ips None
                (advance n n 0 t1 w))
      as [r [k [t2 [Hrun [_ [_ [_ [_ Ho2]]]]]]]].
    exists r, (advance 0 0 k t2 (advance n n 0 t1 w)), (t1 ++ t2).
    split; [exact Hrun|]. split.
    + unfold advance; simpl. now rewrite app_assoc.
    + now rewrite stdout_of_app, Ho1, Ho2.
Qed.

(** ** Claims on the prober *)

(** C7. The handshake loop dials the addresses one after the other in
    list order.  When the handshakes on [pre] fail and the one on the
    next address [ip] succeeds, it dials exactly [pre] and [ip], closes
    that connection and returns nil, whatever the close returns; a close
    error is written to standard error in debug mode only, and without
    debug nothing is written at all.  When every handshake fails, the
    loop dials every address and returns the error of the last one. *)
Theorem probe_loop_sequential env dialer domain debug ips w :
  (forall pre ip post,
     ips = pre ++ ip :: post ->
     (forall i, (i < List.length pre)%nat ->
        dial_at env w dialer domain ips i <> None) ->
     dial_at env w dialer domain ips (List.length pre) = None ->
     exists t,
       probe_loop env dialer domain debug None ips w
       = Returns None
           (advance 0 0 (S (List.length pre))
              (t ++ [EvDial dialer "tcp" (ip ++ ":443")%string domain;
                     EvClose (n_dial w + List.length pre)]
                 ++ close_log env debug domain ip (n_dial w + List.length pre))
              w) /\
       handshakes_only debug domain pre t /\
       closes_of t = [] /\
       (debug = false ->
        close_log env debug domain ip (n_dial w + List.length pre) = [])) /\
  (ips <> [] ->
   (forall i, (i < List.length ips)%nat ->
      dial_at env w dialer domain ips i <> None) ->
   exists t e,
     dial_at env w dialer domain ips (List.length ips - 1) = Some e /\
     probe_loop env dialer domain debug None ips w
     = Returns (Some (HandshakeFailure domain (last ips EmptyString) e))
               (advance 0 0 (List.length ips) t w) /\
     handshakes_only debug domain ips t /\
     closes_of t = []).
Proof.
  split.
  - intros pre ip post -> Hpre Hok.
    destruct (probe_loop_success env dialer domain debug ip post pre None w
                Hpre Hok) as [t [Hrun [Hshape Hclose]]].
    exists t. repeat split; auto; try apply Hshape.
    intros ->. unfold close_log. now destruct (net_close env _).
  - intros Hne Hall.
    destruct (probe_loop_all_fail env dialer domain debug ips None w Hall)
      as [t [Hrun [Hshape Hclose]]].
    destruct ips as [|ip rest]; [congruence|].
    unfold last_failure in Hrun.
    destruct (dial_at env w dialer domain (ip :: rest)
                (List.length (ip :: rest) - 1)) as [e|] eqn:E.
    + exists t, e. repeat split; auto; apply Hshape.
    + exfalso. apply (Hall (List.length (ip :: rest) - 1)%nat); [simpl; lia|].
      exact E.
Qed.

Lemma probe_loop_sequential_witness :
  (exists t,
     probe_loop env_second new_dialer "example.com" true None sample_ips world0
     = Returns None
         (advance 0 0 2
            (t ++ [EvDial new_dialer "tcp" "10.0.0.2:443" "example.com";
                   EvClose 1]
               ++ close_log env_second true "example.com" "10.0.0.2" 1)
            world0) /\
     handshakes_only true "example.com" ["10.0.0.1"] t /\
     closes_of t = [] /\
     (true = false ->
      close_log env_second true "example.com" "10.0.0.2" 1 = [])) /\
  (exists t e,
     dial_at env_down world0 new_dialer "deadsite.test" sample_ips 2 = Some e /\
     probe_loop env_down new_dialer "deadsite.test" false None sample_ips world0
     = Returns (Some (HandshakeFailure "deadsite.test" "10.0.0.3" e))
               (advance 0 0 3 t world0) /\
     handshakes_only false "deadsite.test" sample_ips t /\
     closes_of t = []).
Proof.
  split.
  - apply (proj1 (probe_loop_sequential env_second new_dialer "example.com"
                    true sample_ips world0)
             ["10.0.0.1"] "10.0.0.2" ["10.0.0.3"]).
    + reflexivity.
    + intros i Hi. destruct i; [vm_compute; discriminate|simpl in Hi; lia].
    + reflexivity.
  - apply (proj2 (probe_loop_sequential env_down new_dialer "deadsite.test"
                    false sample_ips world0)).
    + discriminate.
    + intros i _. vm_compute. discriminate.
Defined.

Lemma loop_trace_no_close ma : forall tried len,
  closes_of (loop_trace ma len tried) = [].
Proof.
  induction tried as [|a [|b rest] IH]; intros len; try reflexivity.
  rewrite loop_trace_cons, closes_of_app, IH. reflexivity.
Qed.

Lemma resolve_Returns_shape env fuel domain w r w1 :
  resolve env fuel domain w = Returns r w1 ->
  exists n t, w1 = advance n n 0 t w /\
              dials_of t = [] /\ stdout_of t = [] /\ closes_of t = [].
Proof.
  intros H. destruct (resolve_Returns_inv _ _ _ _ _ _ H) as [in_ [tr Hloop]].
  destruct (resolve_loop_inv _ _ _ _ _ _ Hloop)
    as [j [_ [_ [_ [_ [_ Hw]]]]]].
  exists (S j), (loop_trace (query_A domain) 0 (map (pick env w) (seq 0 (S j)))).
  split; [exact Hw|].
  destruct (loop_trace_no_dial (query_A domain)
              (map (pick env w) (seq 0 (S j))) 0) as [Hd Ho].
  split; [exact Hd|]. split; [exact Ho|]. apply loop_trace_no_close.
Qed.

(** C8, as the specification words it, fails: [probeHttps] is handed a
    domain, not addresses, and sends the DNS query itself. *)
Lemma probeHttps_queries_dns :
  ~ (forall env fuel dialer domain debug w r w',
       probeHttps env fuel dialer domain debug w = Returns r w' ->
       exchanges_of (trace w') = exchanges_of (trace w)).
Proof.
  intros H.
  specialize (H env_up 5%nat new_dialer "example.com" false world0 None
                world_up_probe eq_refl).
  vm_compute in H. discriminate H.
Qed.

(** C8, amended.  [probeHttps] is called with a domain and begins by
    calling [resolve] on it, so the DNS queries of a probe are sent from
    within the probe; the resolution dials nothing, and once [resolve]
    has returned, the rest of the probe (the handshake loop over the
    addresses [resolve] returned) sends no DNS query and draws no
    server: all resolution happens before the first handshake. *)
Theorem probeHttps_resolves_then_dials env fuel dialer domain debug w r w' :
  probeHttps env fuel dialer domain debug w = Returns r w' ->
  exists ips err w1 t1 t2,
    resolve env fuel domain w = Returns (ips, err) w1 /\
    trace w1 = trace w ++ t1 /\ dials_of t1 = [] /\ closes_of t1 = [] /\
    trace w' = trace w1 ++ t2 /\ exchanges_of t2 = [] /\
    n_exchange w' = n_exchange w1 /\ n_rand w' = n_rand w1 /\
    match err with
    | Some e => r = Some e /\ w' = w1
    | None =>
        probe_loop env dialer domain debug None ips w1 = Returns r w' /\
        exists k, dials_of t2
                  = map (fun ip => ((ip ++ ":443")%string, domain)) (firstn k ips)
    end.
Proof.
  intros H.
  destruct (probeHttps_Returns_inv _ _ _ _ _ _ _ _ H) as [ips [err [w1 Hres]]].
  destruct (resolve_Returns_shape _ _ _ _ _ _ Hres)
    as [n [t1 [Hw1 [Hd1 [_ Hc1]]]]].
  rewrite (probeHttps_after_resolve _ _ dialer _ debug _ _ _ _ Hres) in H.
  exists ips, err, w1, t1.
  destruct err as [e|].
  - injection H as <- <-. exists [].
    split; [exact Hres|]. split; [now rewrite Hw1|].
    split; [exact Hd1|]. split; [exact Hc1|].
    rewrite app_nil_r. repeat split; reflexivity.
  - destruct (probe_loop_total env dialer domain debug ips None w1)
      as [r' [k [t2 [Hrun [_ [Hd2 [Hx2 _]]]]]]].
    rewrite Hrun in H. injection H as <- <-. exists t2.
    split; [exact Hres|]. split; [now rewrite Hw1|].
    split; [exact Hd1|]. split; [exact Hc1|].
    split; [reflexivity|]. split; [exact Hx2|].
    split; [unfold advance; simpl; lia|].
    split; [unfold advance; simpl; lia|].
    split; [exact Hrun|]. exists k. exact Hd2.
Qed.

Lemma probeHttps_resolves_then_dials_witness :
  exists ips err w1 t1 t2,
    resolve env_up 5 "example.com" world0 = Returns (ips, err) w1 /\
    trace w1 = trace world0 ++ t1 /\ dials_of t1 = [] /\ closes_of t1 = [] /\
    trace world_up_probe = trace w1 ++ t2 /\ exchanges_of t2 = [] /\
    n_exchange world_up_probe = n_exchange w1 /\
    n_rand world_up_probe = n_rand w1 /\
    match err with
    | Some e => None = Some e /\ world_up_probe = w1
    | None =>
        probe_loop env_up new_dialer "example.com" false None ips w1
          = Returns None world_up_probe /\
        exists k, dials_of t2
                  = map (fun ip => ((ip ++ ":443")%string, "example.com"))
                        (firstn k ips)
    end.
Proof.
  apply (probeHttps_resolves_then_dials env_up 5 new_dialer "example.com"
           false world0 None world_up_probe).
  vm_compute. reflexivity.
Defined.

(** ** The fallback chain *)

Lemma string_app_assoc (a b c : string) :
  ((a ++ b) ++ c = a ++ b ++ c)%string.
Proof. induction a as [|x a IH]; simpl; [reflexivity|now rewrite IH]. Qed.

Lemma probe_succeeds_probeHttps env fuel dialer debug name w w2 :
  probe_succeeds env fuel dialer debug name w w2 ->
  probeHttps env fuel dialer name debug w = Returns None w2.
Proof.
  intros [ips [w1 [Hres Hrun]]].
  now rewrite (probeHttps_after_resolve _ _ dialer _ debug _ _ _ _ Hres).
Qed.

Lemma probe_fails_probeHttps env fuel dialer debug name w e w2 :
  probe_fails env fuel dialer debug name w e w2 ->
  probeHttps env fuel dialer name debug w = Returns (Some e) w2.
Proof.
  intros [[ips Hres]|[ips [w1 [Hres Hrun]]]];
    now rewrite (probeHttps_after_resolve _ _ dialer _ debug _ _ _ _ Hres).
Qed.

Lemma log_then {A} (debug : bool) e (k : unit -> M A) w :
  bind (if debug then Stderr (Error e ++ newline)%string else ret tt) k w
  = k tt (advance 0 0 0 (logged debug e) w).
Proof.
  unfold bind, logged, Stderr, ret. destruct debug.
  - now rewrite emit_spec.
  - now rewrite advance_0.
Qed.

Lemma classify_bare env fuel dialer debug domain w w1 :
  probeHttps env fuel dialer domain debug w = Returns None w1 ->
  classify env fuel dialer debug domain w
  = Returns tt (advance 0 0 0 [EvStdout (url_https domain ++ newline)%string] w1).
Proof.
  intros H. unfold classify. cbv zeta. rewrite (bind_Returns _ _ _ _ _ H).
  unfold bind, ret, Stdout. rewrite emit_spec. unfold url_https.
  now rewrite !string_app_assoc.
Qed.

Lemma classify_www env fuel dialer debug domain w e1 w1 r w2 :
  probeHttps env fuel dialer domain debug w = Returns (Some e1) w1 ->
  probeHttps env fuel dialer ("www." ++ domain)%string debug
    (advance 0 0 0 (logged debug e1) w1) = Returns r w2 ->
  classify env fuel dialer debug domain w
  = Returns tt
      (advance 0 0 0
         (match r with
          | Some e2 =>
              logged debug e2 ++ [EvStdout (url_http domain ++ newline)%string]
          | None => [EvStdout (url_https_www domain ++ newline)%string]
          end) w2).
Proof.
  intros H1 H2. unfold classify. cbv zeta. rewrite (bind_Returns _ _ _ _ _ H1).
  unfold bind at 1. rewrite log_then. rewrite (bind_Returns _ _ _ _ _ H2).
  unfold ret at 1. destruct r as [e2|].
  - rewrite log_then. unfold Stdout. rewrite emit_spec, advance_advance.
    unfold url_http. now rewrite !string_app_assoc.
  - unfold Stdout. rewrite emit_spec. unfold url_https_www.
    simpl. now rewrite !string_app_assoc.
Qed.

Lemma probeHttps_Returns_shape env fuel dialer domain debug w r w' :
  probeHttps env fuel dialer domain debug w = Returns r w' ->
  exists t, trace w' = trace w ++ t /\ stdout_of t = [] /\
    Forall (fun qa => fst qa = query_A domain) (exchanges_of t) /\
    Forall (fun an => snd an = domain) (dials_of t).
Proof.
  intros H.
  destruct (probeHttps_Returns_inv _ _ _ _ _ _ _ _ H) as [ips [err [w1 Hres]]].
  rewrite (probeHttps_after_resolve _ _ dialer _ debug _ _ _ _ Hres) in H.
  destruct (resolve_Returns_inv _ _ _ _ _ _ Hres) as [in_ [tr Hloop]].
  destruct (resolve_loop_inv _ _ _ _ _ _ Hloop)
    as [j [_ [_ [_ [_ [_ Hw1]]]]]].
  set (t1 := loop_trace _ _ _) in Hw1.
  assert (Hx1 : Forall (fun qa => fst qa = query_A domain) (exchanges_of t1)).
  { subst t1. rewrite loop_trace_exchanges. apply Forall_forall.
    intros qa Hin. apply in_map_iff in Hin. now destruct Hin as [x [<- _]]. }
  destruct (loop_trace_no_dial (query_A domain)
              (map (pick env w) (seq 0 (S j))) 0) as [Hd1 Ho1].
  fold t1 in Hd1, Ho1.
  destruct err as [e|].
  - injection H as _ <-. exists t1. rewrite Hw1, Hd1.
    repeat split; auto.
  - destruct (probe_loop_total env dialer domain debug ips None w1)
      as [r' [k [t2 [Hrun [_ [Hd2 [Hx2 [_ Ho2]]]]]]]].
    rewrite Hrun in H. injection H as _ <-. exists (t1 ++ t2).
    split; [rewrite Hw1; unfold advance; simpl; now rewrite app_assoc|].
    split; [now rewrite stdout_of_app, Ho1, Ho2|].
    split; [now rewrite exchanges_of_app, Hx2, app_nil_r|].
    rewrite dials_of_app, Hd1, Hd2. simpl app.
    apply Forall_forall. intros an Hin. apply in_map_iff in Hin.
    now destruct Hin as [x [<- _]].
Qed.

(** ** Claims on the fallback chain *)

(** C2. The loop body probes the bare domain first.  When that probe
    succeeds (resolution and a handshake), the body prints exactly
    [https://domain/] and ends: every DNS question of the run asks for
    [domain] and every handshake names [domain], so the www variant is
    not probed.  When the bare probe fails, at the resolution or at the
    handshakes, the body probes [www.domain] next, and when that probe
    succeeds it prints exactly [https://www.domain/]. *)
Theorem classify_bare_then_www env fuel dialer debug domain w :
  (forall w2,
     probe_succeeds env fuel dialer debug domain w w2 ->
     classify env fuel dialer debug domain w
     = Returns tt (advance 0 0 0 [EvStdout (url_https domain ++ newline)%string] w2)
     /\ exists t, trace w2 = trace w ++ t /\ stdout_of t = [] /\
          Forall (fun qa => fst qa = query_A domain) (exchanges_of t) /\
          Forall (fun an => snd an = domain) (dials_of t)) /\
  (forall e1 w1 w2,
     probe_fails env fuel dialer debug domain w e1 w1 ->
     probe_succeeds env fuel dialer debug ("www." ++ domain)%string
       (advance 0 0 0 (logged debug e1) w1) w2 ->
     classify env fuel dialer debug domain w
     = Returns tt
         (advance 0 0 0 [EvStdout (url_https_www domain ++ newline)%string] w2)
     /\ exists t1 t2,
          trace w1 = trace w ++ t1 /\ stdout_of t1 = [] /\
          trace w2 = trace w1 ++ logged debug e1 ++ t2 /\ stdout_of t2 = []).
Proof.
  split.
  - intros w2 Hok. apply probe_succeeds_probeHttps in Hok.
    split; [now apply classify_bare|].
    exact (probeHttps_Returns_shape _ _ _ _ _ _ _ _ Hok).
  - intros e1 w1 w2 Hbare Hwww.
    apply probe_fails_probeHttps in Hbare.
    apply probe_succeeds_probeHttps in Hwww.
    split; [exact (classify_www _ _ _ _ _ _ _ _ _ _ Hbare Hwww)|].
    destruct (probeHttps_Returns_shape _ _ _ _ _ _ _ _ Hbare)
      as [t1 [Ht1 [Ho1 _]]].
    destruct (probeHttps_Returns_shape _ _ _ _ _ _ _ _ Hwww)
      as [t2 [Ht2 [Ho2 _]]].
    exists t1, t2. repeat split; auto.
    rewrite Ht2. unfold advance; simpl. now rewrite app_assoc.
Qed.

Lemma classify_bare_then_www_witness :
  classify env_up 5 new_dialer false "example.com" world0
  = Returns tt
      (advance 0 0 0 [EvStdout (url_https "example.com" ++ newline)%string]
               world_up_probe)
  /\
  classify env_www 5 new_dialer false "example.com" world0
  = Returns tt
      (advance 0 0 0 [EvStdout (url_https_www "example.com" ++ newline)%string]
               world_www_probe).
Proof.
  split.
  - apply (proj1 (classify_bare_then_www env_up 5 new_dialer false
                    "example.com" world0) world_up_probe).
    exists ["93.184.216.34"], world_up_resolved. split; reflexivity.
  - apply (proj2 (classify_bare_then_www env_www 5 new_dialer false
                    "example.com" world0)
             (EmptyAnswer "example.com") world_www_bare world_www_probe).
    + left. exists []. reflexivity.
    + exists ["93.184.216.34"], world_www_resolved. split; reflexivity.
Defined.

(** C3. When the probe of the bare domain and the probe of [www.domain]
    both fail, each at its resolution or at its handshakes, the loop body
    prints exactly [http://domain/]; this is the only line the run
    prints, and after the second probe nothing reaches the network. *)
Theorem classify_degrades_to_http env fuel dialer debug domain w e1 w1 e2 w2 :
  probe_fails env fuel dialer debug domain w e1 w1 ->
  probe_fails env fuel dialer debug ("www." ++ domain)%string
    (advance 0 0 0 (logged debug e1) w1) e2 w2 ->
  exists w' t t',
    classify env fuel dialer debug domain w = Returns tt w' /\
    trace w2 = trace w ++ t /\
    trace w' = trace w2 ++ t' /\
    Forall (fun e => is_network e = false) t' /\
    stdout_of (t ++ t') = [(url_http domain ++ newline)%string].
Proof.
  intros Hbare Hwww.
  apply probe_fails_probeHttps in Hbare, Hwww.
  pose proof (classify_www _ _ _ _ _ _ _ _ _ _ Hbare Hwww) as Hrun.
  cbv iota in Hrun.
  destruct (probeHttps_Returns_shape _ _ _ _ _ _ _ _ Hbare)
    as [t1 [Ht1 [Ho1 _]]].
  destruct (probeHttps_Returns_shape _ _ _ _ _ _ _ _ Hwww)
    as [t2 [Ht2 [Ho2 _]]].
  eexists _, (t1 ++ logged debug e1 ++ t2), _.
  split; [exact Hrun|].
  split; [rewrite Ht2; unfold advance; simpl; now rewrite Ht1, <- !app_assoc|].
  split; [reflexivity|].
  split.
  - unfold logged. destruct debug; repeat constructor.
  - rewrite !stdout_of_app, Ho1, Ho2.
    unfold logged. destruct debug; reflexivity.
Qed.

Lemma classify_degrades_to_http_witness :
  exists w' t t',
    classify env_down 5 new_dialer true "deadsite.test" world0 = Returns tt w' /\
    trace world_down_www = trace world0 ++ t /\
    trace w' = trace world_down_www ++ t' /\
    Forall (fun e => is_network e = false) t' /\
    stdout_of (t ++ t') = [(url_http "deadsite.test" ++ newline)%string].
Proof.
  apply (classify_degrades_to_http env_down 5 new_dialer true "deadsite.test"
           world0 error_down_bare world_down_bare error_down_www world_down_www).
  - left. exists []. reflexivity.
  - left. exists []. reflexivity.
Defined.

(** ** The worker pool *)

Lemma classify_total env fuel dialer debug domain w :
  (5 <= fuel)%nat ->
  exists w', classify env fuel dialer debug domain w = Returns tt w'.
Proof.
  intros Hf.
  destruct (probeHttps_total env fuel dialer domain debug w Hf)
    as [r [w1 [t1 [H1 _]]]].
  destruct r as [e1|].
  - destruct (probeHttps_total env fuel dialer ("www." ++ domain)%string debug
                (advance 0 0 0 (logged debug e1) w1) Hf)
      as [r [w2 [t2 [H2 _]]]].
    eexists. exact (classify_www _ _ _ _ _ _ _ _ _ _ H1 H2).
  - eexists. exact (classify_bare _ _ _ _ _ _ _ H1).
Qed.

(** A run of the loop body prints one line, of one of the three forms. *)
Lemma classify_Returns_stdout env fuel dialer debug domain w u w' :
  classify env fuel dialer debug domain w = Returns u w' ->
  exists line,
    stdout_of (trace w') = stdout_of (trace w) ++ [line] /\
    result_line domain line.
Proof.
  intros H.
  destruct (probeHttps env fuel dialer domain debug w) as [[e1|] w1| |] eqn:E1.
  - destruct (probeHttps env fuel dialer ("www." ++ domain)%string debug
                (advance 0 0 0 (logged debug e1) w1)) as [r w2| |] eqn:E2.
    + rewrite (classify_www _ _ _ _ _ _ _ _ _ _ E1 E2) in H.
      injection H as _ <-.
      destruct (probeHttps_Returns_shape _ _ _ _ _ _ _ _ E1) as [t1 [Ht1 [Ho1 _]]].
      destruct (probeHttps_Returns_shape _ _ _ _ _ _ _ _ E2) as [t2 [Ht2 [Ho2 _]]].
      assert (Hs : stdout_of (trace w2) = stdout_of (trace w)).
      { rewrite Ht2. unfold advance; simpl.
        rewrite Ht1, !stdout_of_app, Ho1, Ho2.
        unfold logged. destruct debug; simpl; now rewrite !app_nil_r. }
      destruct r as [e2|].
      * exists (url_http domain ++ newline)%string.
        unfold advance; simpl. rewrite !stdout_of_app, Hs.
        split; [|right; right; reflexivity].
        unfold logged. destruct debug; reflexivity.
      * exists (url_https_www domain ++ newline)%string.
        unfold advance; simpl. rewrite !stdout_of_app, Hs.
        split; [reflexivity|right; left; reflexivity].
    + unfold classify in H. cbv zeta in H.
      rewrite (bind_Returns _ _ _ _ _ E1) in H.
      unfold bind at 1 in H. rewrite log_then in H.
      unfold bind at 1 in H. rewrite E2 in H. discriminate.
    + unfold classify in H. cbv zeta in H.
      rewrite (bind_Returns _ _ _ _ _ E1) in H.
      unfold bind at 1 in H. rewrite log_then in H.
      unfold bind at 1 in H. rewrite E2 in H. discriminate.
  - rewrite (classify_bare _ _ _ _ _ _ _ E1) in H. injection H as _ <-.
    destruct (probeHttps_Returns_shape _ _ _ _ _ _ _ _ E1) as [t1 [Ht1 [Ho1 _]]].
    exists (url_https domain ++ newline)%string.
    unfold advance; simpl. rewrite Ht1, !stdout_of_app, Ho1, app_nil_r.
    split; [reflexivity|left; reflexivity].
  - unfold classify, bind in H. cbv zeta in H. rewrite E1 in H. discriminate.
  - unfold classify, bind in H. cbv zeta in H. rewrite E1 in H. discriminate.
Qed.

Lemma set_worker_split : forall ws i x,
  nth_error ws i = Some x ->
  exists l1 l2, ws = l1 ++ x :: l2 /\ List.length l1 = i /\
                forall y, set_worker i y ws = l1 ++ y :: l2.
Proof.
  induction ws as [|a ws IH]; intros [|i] x H; try discriminate.
  - injection H as ->. exists [], ws. repeat split.
  - destruct (IH i x H) as [l1 [l2 [-> [Hl Hset]]]].
    exists (a :: l1), l2. split; [reflexivity|]. split; [simpl; lia|].
    intros y. simpl. now rewrite Hset.
Qed.

Lemma busy_domains_app l1 l2 :
  busy_domains (l1 ++ l2) = busy_domains l1 ++ busy_domains l2.
Proof. apply flat_map_app. Qed.

Lemma live_count_app l1 l2 :
  live_count (l1 ++ l2) = (live_count l1 + live_count l2)%nat.
Proof. unfold live_count. now rewrite filter_app, length_app. Qed.

Lemma worker_sum_app l1 l2 :
  list_sum (map worker_measure (l1 ++ l2))
  = (list_sum (map worker_measure l1) + list_sum (map worker_measure l2))%nat.
Proof. now rewrite map_app, list_sum_app. Qed.

Lemma live_count_0 ws : live_count ws = 0%nat -> Forall (eq W_done) ws.
Proof.
  induction ws as [|x ws IH]; intros H; [constructor|].
  destruct x; try discriminate.
  constructor; [reflexivity|]. apply IH. exact H.
Qed.

Lemma live_worker ws :
  (0 < live_count ws)%nat ->
  exists i x, nth_error ws i = Some x /\ x <> W_done.
Proof.
  induction ws as [|x ws IH]; intros H; [unfold live_count in H; simpl in H; lia|].
  destruct x.
  - exists 0%nat, W_recv. split; [reflexivity|discriminate].
  - exists 0%nat, (W_busy domain). split; [reflexivity|discriminate].
  - destruct (IH H) as [i [x [Hi Hx]]]. exists (S i), x. now split.
Qed.

Lemma busy_count_le ws : (busy_count ws <= List.length ws)%nat.
Proof. unfold busy_count. apply filter_length_le. Qed.

Lemma consumed_cons t rest :
  consumed (t :: rest)
  = if (String.length t =? 0)%nat then [] else t :: consumed rest.
Proof. reflexivity. Qed.

(** ** The invariant *)

Lemma pool_init_inv N input s0 :
  pool_init N input = Some s0 -> pool_inv N input s0.
Proof.
  unfold pool_init. destruct (N <? 0) eqn:E; [discriminate|].
  apply Z.ltb_ge in E. intros H. injection H as <-.
  constructor; simpl.
  - reflexivity.
  - rewrite repeat_length. lia.
  - lia.
  - f_equal. induction (Z.to_nat N) as [|n IH]; simpl; [reflexivity|].
    unfold live_count in *. simpl. now rewrite <- IH.
  - reflexivity.
  - intros Hin. apply repeat_spec in Hin. discriminate.
  - discriminate.
  - exists []. split; [constructor|].
    assert (busy_domains (repeat W_recv (Z.to_nat N)) = []) as ->.
    { induction (Z.to_nat N) as [|n IH]; simpl; [reflexivity|exact IH]. }
    simpl. reflexivity.
Qed.

Lemma fire_read_inv env fuel debug N input s s' :
  pool_inv N input s -> fire env fuel debug Act_read s = Some s' ->
  pool_inv N input s'.
Proof.
  intros [Hcap Hws Hbuf Hwg Hcl Hdone Hret [processed [Hout Hperm]]] H.
  unfold fire in H. destruct (producer s) as [inp|t rest| |] eqn:Ep;
    try discriminate.
  assert (Hd : In W_done (workers s) -> ch_buf s = [])
    by (intros Hin; apply Hdone, Hin).
  simpl pending in Hperm.
  destruct inp as [|t rest]; simpl ReadLine in H; cbv iota beta in H.
  - simpl in H. injection H as <-.
    constructor; simpl; auto; try discriminate.
    exists processed. split; [exact Hout|exact Hperm].
  - rewrite consumed_cons in Hperm.
    destruct (String.length t =? 0)%nat; injection H as <-;
      constructor; simpl; auto; try discriminate;
      try (intros Hin; rewrite Hcl in Hdone; destruct (Hdone Hin); discriminate);
      exists processed; (split; [exact Hout|exact Hperm]).
Qed.

Lemma fire_send_inv env fuel debug N input s s' :
  pool_inv N input s -> fire env fuel debug Act_send s = Some s' ->
  pool_inv N input s'.
Proof.
  intros [Hcap Hws Hbuf Hwg Hcl Hdone Hret [processed [Hout Hperm]]] H.
  unfold fire in H. destruct (producer s) as [inp|t rest| |] eqn:Ep;
    try discriminate.
  destruct (Z.of_nat (List.length (ch_buf s)) <? ch_cap s) eqn:E;
    [|discriminate].
  apply Z.ltb_lt in E. injection H as <-.
  constructor; simpl; auto; try discriminate.
  - rewrite length_app. simpl. lia.
  - intros Hin. destruct (Hdone Hin) as [Hc _]. rewrite Hcl in Hc.
    discriminate.
  - exists processed. split; [exact Hout|].
    simpl pending in Hperm. rewrite <- app_assoc. exact Hperm.
Qed.

Lemma fire_recv_inv env fuel debug N input s s' i :
  pool_inv N input s -> fire env fuel debug (Act_recv i) s = Some s' ->
  pool_inv N input s'.
Proof.
  intros [Hcap Hws Hbuf Hwg Hcl Hdone Hret [processed [Hout Hperm]]] H.
  unfold fire in H.
  destruct (nth_error (workers s) i) as [[|d|]|] eqn:Ei; try discriminate.
  destruct (ch_buf s) as [|domain buf] eqn:Eb; [discriminate|].
  injection H as <-.
  destruct (set_worker_split _ _ _ Ei) as [l1 [l2 [Hsplit [_ Hset]]]].
  constructor; simpl; auto; rewrite ?Hset.
  - rewrite <- Hws, Hsplit, !length_app. reflexivity.
  - simpl in Hbuf. lia.
  - rewrite Hwg, Hsplit, !live_count_app. reflexivity.
  - intros Hin. exfalso.
    assert (In W_done (workers s)) as Hin'.
    { rewrite Hsplit. apply in_app_or in Hin. apply in_or_app.
      destruct Hin as [Hin|[Hin|Hin]]; [now left|discriminate|right; now right]. }
    destruct (Hdone Hin'); discriminate.
  - exists processed. split; [exact Hout|].
    rewrite <- Hperm, Hsplit, !busy_domains_app.
    change (busy_domains (W_busy domain :: l2)) with (domain :: busy_domains l2).
    change (busy_domains (W_recv :: l2)) with (busy_domains l2).
    apply Permutation_app_head. rewrite <- !app_assoc.
    apply Permutation_app_head. cbn [app].
    apply Permutation_middle.
Qed.

Lemma fire_work_inv env fuel debug N input s s' i :
  pool_inv N input s -> fire env fuel debug (Act_work i) s = Some s' ->
  pool_inv N input s'.
Proof.
  intros [Hcap Hws Hbuf Hwg Hcl Hdone Hret [processed [Hout Hperm]]] H.
  unfold fire in H.
  destruct (nth_error (workers s) i) as [[|d|]|] eqn:Ei; try discriminate.
  destruct (classify env fuel new_dialer debug d (world s)) as [u w'| |] eqn:Ec;
    try discriminate.
  injection H as <-.
  destruct (set_worker_split _ _ _ Ei) as [l1 [l2 [Hsplit [_ Hset]]]].
  destruct (classify_Returns_stdout _ _ _ _ _ _ _ _ Ec) as [line [Hline Hform]].
  constructor; simpl; auto; rewrite ?Hset.
  - rewrite <- Hws, Hsplit, !length_app. reflexivity.
  - rewrite Hwg, Hsplit, !live_count_app. reflexivity.
  - intros Hin. apply Hdone. rewrite Hsplit.
    apply in_app_or in Hin. apply in_or_app.
    destruct Hin as [Hin|[Hin|Hin]]; [now left|discriminate|right; now right].
  - exists (processed ++ [d]). split.
    + rewrite Hline. apply Forall2_app; [exact Hout|].
      constructor; [exact Hform|constructor].
    + rewrite <- Hperm, Hsplit, !busy_domains_app.
      change (busy_domains (W_busy d :: l2)) with (d :: busy_domains l2).
      change (busy_domains (W_recv :: l2)) with (busy_domains l2).
      rewrite <- !app_assoc. apply Permutation_app_head. cbn [app].
      apply Permutation_middle.
Qed.

Lemma fire_exit_inv env fuel debug N input s s' i :
  pool_inv N input s -> fire env fuel debug (Act_exit i) s = Some s' ->
  pool_inv N input s'.
Proof.
  intros [Hcap Hws Hbuf Hwg Hcl Hdone Hret [processed [Hout Hperm]]] H.
  unfold fire in H.
  destruct (nth_error (workers s) i) as [[|d|]|] eqn:Ei; try discriminate.
  destruct (ch_buf s) as [|domain buf] eqn:Eb; [|discriminate].
  destruct (ch_closed s) eqn:Ecl; [|discriminate].
  injection H as <-.
  destruct (set_worker_split _ _ _ Ei) as [l1 [l2 [Hsplit [_ Hset]]]].
  assert (Hlive : live_count (workers s)
                  = S (live_count (l1 ++ W_done :: l2))).
  { rewrite Hsplit, !live_count_app. unfold live_count. simpl. lia. }
  constructor; simpl; auto; rewrite ?Hset.
  - rewrite <- Hws, Hsplit, !length_app. reflexivity.
  - rewrite Hwg, Hlive. lia.
  - intros Hp. specialize (Hret Hp). rewrite Hwg, Hlive in Hret. lia.
  - exists processed. split; [exact Hout|].
    rewrite <- Hperm, Hsplit, !busy_domains_app. reflexivity.
Qed.

Lemma fire_join_inv env fuel debug N input s s' :
  pool_inv N input s -> fire env fuel debug Act_join s = Some s' ->
  pool_inv N input s'.
Proof.
  intros [Hcap Hws Hbuf Hwg Hcl Hdone Hret [processed [Hout Hperm]]] H.
  unfold fire in H. destruct (producer s) as [inp|t rest| |] eqn:Ep;
    try discriminate.
  destruct (wg s =? 0) eqn:E; [|discriminate].
  apply Z.eqb_eq in E. injection H as <-.
  constructor; simpl; auto.
  exists processed. split; [exact Hout|exact Hperm].
Qed.

Lemma fire_inv env fuel debug N input a s s' :
  pool_inv N input s -> fire env fuel debug a s = Some s' ->
  pool_inv N input s'.
Proof.
  destruct a.
  - apply fire_read_inv.
  - apply fire_send_inv.
  - apply fire_recv_inv.
  - apply fire_work_inv.
  - apply fire_exit_inv.
  - apply fire_join_inv.
Qed.

Lemma run_inv env fuel debug N input : forall sched s s',
  pool_inv N input s -> run env fuel debug sched s = Some s' ->
  pool_inv N input s'.
Proof.
  induction sched as [|a sched IH]; intros s s' Hinv H; simpl in H.
  - injection H as <-. exact Hinv.
  - destruct (fire env fuel debug a s) as [s1|] eqn:E; [|discriminate].
    apply (IH s1); [|exact H]. exact (fire_inv _ _ _ _ _ _ _ _ Hinv E).
Qed.

Lemma reachable_inv env fuel debug N input s :
  reachable env fuel debug N input s -> pool_inv N input s.
Proof.
  intros [s0 [sched [Hinit Hrun]]].
  exact (run_inv _ _ _ _ _ _ _ _ (pool_init_inv _ _ _ Hinit) Hrun).
Qed.

(** ** Termination and progress *)

Lemma fire_measure env fuel debug a s s' :
  fire env fuel debug a s = Some s' ->
  (pool_measure s' < pool_measure s)%nat.
Proof.
  intros H. unfold pool_measure. destruct a; unfold fire in H.
  - destruct (producer s) as [inp|t rest| |]; try discriminate.
    destruct inp as [|t rest]; simpl ReadLine in H; cbv iota beta in H.
    + simpl in H. injection H as <-. simpl. lia.
    + unfold producer_measure. rewrite consumed_cons.
      destruct (String.length t =? 0)%nat; injection H as <-; simpl; lia.
  - destruct (producer s) as [inp|t rest| |]; try discriminate.
    destruct (_ <? _); [|discriminate]. injection H as <-. simpl.
    rewrite length_app. simpl. lia.
  - destruct (nth_error (workers s) i) as [[|d|]|] eqn:Ei; try discriminate.
    destruct (ch_buf s) as [|domain buf]; [discriminate|].
    injection H as <-.
    destruct (set_worker_split _ _ _ Ei) as [l1 [l2 [Hsplit [_ Hset]]]].
    simpl. rewrite Hset, Hsplit, !worker_sum_app. simpl. lia.
  - destruct (nth_error (workers s) i) as [[|d|]|] eqn:Ei; try discriminate.
    destruct (classify _ _ _ _ _ _); try discriminate.
    injection H as <-.
    destruct (set_worker_split _ _ _ Ei) as [l1 [l2 [Hsplit [_ Hset]]]].
    simpl. rewrite Hset, Hsplit, !worker_sum_app. simpl. lia.
  - destruct (nth_error (workers s) i) as [[|d|]|] eqn:Ei; try discriminate.
    destruct (ch_buf s) as [|domain buf]; [|discriminate].
    destruct (ch_closed s); [|discriminate].
    injection H as <-.
    destruct (set_worker_split _ _ _ Ei) as [l1 [l2 [Hsplit [_ Hset]]]].
    simpl. rewrite Hset, Hsplit, !worker_sum_app. simpl. lia.
  - destruct (producer s) as [inp|t rest| |]; try discriminate.
    destruct (wg s =? 0); [|discriminate]. injection H as <-. simpl. lia.
Qed.

Lemma run_measure env fuel debug : forall sched s s',
  run env fuel debug sched s = Some s' ->
  (List.length sched + pool_measure s' <= pool_measure s)%nat.
Proof.
  induction sched as [|a sched IH]; intros s s' H; simpl in H.
  - injection H as <-. simpl. lia.
  - destruct (fire env fuel debug a s) as [s1|] eqn:E; [|discriminate].
    pose proof (fire_measure _ _ _ _ _ _ E). specialize (IH _ _ H).
    simpl. lia.
Qed.

(** A live worker can always move once the channel is closed or filled. *)
Lemma worker_can_move env fuel debug s i x :
  (5 <= fuel)%nat ->
  nth_error (workers s) i = Some x -> x <> W_done ->
  ch_buf s <> [] \/ ch_closed s = true \/ (exists d, x = W_busy d) ->
  exists a s', fire env fuel debug a s = Some s'.
Proof.
  intros Hf Hi Hx Hen. destruct x as [|d|]; [| |congruence].
  - destruct (ch_buf s) as [|domain buf] eqn:Eb.
    + destruct Hen as [Hen|[Hen|[d Hen]]]; [congruence| |discriminate].
      exists (Act_exit i). unfold fire. rewrite Hi, Eb, Hen. eauto.
    + exists (Act_recv i). unfold fire. rewrite Hi, Eb. eauto.
  - destruct (classify_total env fuel new_dialer debug d (world s) Hf)
      as [w' Hc].
    exists (Act_work i). unfold fire. rewrite Hi, Hc. eauto.
Qed.

(** The pool is free of deadlock: until [RunE] has returned, some
    goroutine can take a step. *)
Lemma pool_progress env fuel debug N input s :
  0 < N -> (5 <= fuel)%nat ->
  pool_inv N input s -> producer s <> P_returned ->
  exists a s', fire env fuel debug a s = Some s'.
Proof.
  intros HN Hf [Hcap Hws Hbuf Hwg Hcl Hdone Hret _] Hp.
  destruct (producer s) as [inp|t rest| |] eqn:Ep; [| | |congruence].
  - exists Act_read. unfold fire. rewrite Ep.
    destruct (ReadLine inp) as [t rest].
    destruct (String.length t =? 0)%nat; eauto.
  - destruct (Z.of_nat (List.length (ch_buf s)) <? ch_cap s) eqn:E.
    + exists Act_send. unfold fire. rewrite Ep, E. eauto.
    + apply Z.ltb_ge in E.
      destruct (workers s) as [|x ws] eqn:Ew; [simpl in Hws; lia|].
      assert (Hne : ch_buf s <> []).
      { intros Hnil. rewrite Hnil in E. simpl in E. lia. }
      apply (worker_can_move env fuel debug s 0%nat x Hf).
      * now rewrite Ew.
      * intros ->. destruct Hdone as [_ Hnil]; [now left|]. congruence.
      * now left.
  - destruct (wg s =? 0) eqn:E.
    + exists Act_join. unfold fire. rewrite Ep, E. eauto.
    + apply Z.eqb_neq in E.
      destruct (live_worker (workers s)) as [i [x [Hi Hx]]]; [lia|].
      apply (worker_can_move env fuel debug s i x Hf Hi Hx).
      right; left. exact Hcl.
Qed.

(** From every state of the pool some schedule leads to the return of
    [RunE]. *)
Lemma pool_completes env fuel debug N input :
  0 < N -> (5 <= fuel)%nat ->
  forall n s, (pool_measure s <= n)%nat -> pool_inv N input s ->
  exists sched s', run env fuel debug sched s = Some s' /\
                   producer s' = P_returned.
Proof.
  intros HN Hf. induction n as [|n IH]; intros s Hm Hinv.
  - destruct (producer s) eqn:Ep; unfold pool_measure in Hm;
      rewrite Ep in Hm; simpl in Hm; try lia.
    exists [], s. now split.
  - destruct (producer s) eqn:Ep.
    4: { exists [], s. now split. }
    all: destruct (pool_progress env fuel debug N input s HN Hf Hinv)
           as [a [s1 Hfire]]; [congruence|];
         pose proof (fire_measure _ _ _ _ _ _ Hfire);
         destruct (IH s1 ltac:(lia) (fire_inv _ _ _ _ _ _ _ _ Hinv Hfire))
           as [sched [s' [Hrun Hret]]];
         exists (a :: sched), s'; simpl; rewrite Hfire; now split.
Qed.

(** Once [RunE] has returned nothing moves any more. *)
Lemma pool_returned_final env fuel debug N input s a :
  pool_inv N input s -> producer s = P_returned ->
  fire env fuel debug a s = None.
Proof.
  intros [Hcap Hws Hbuf Hwg Hcl Hdone Hret _] Hp.
  specialize (Hret Hp). rewrite Hwg in Hret.
  assert (Hall : Forall (eq W_done) (workers s))
    by (apply live_count_0; lia).
  assert (Hnth : forall i x, nth_error (workers s) i = Some x -> x = W_done).
  { intros i x Hi. symmetry. rewrite Forall_forall in Hall.
    apply Hall. exact (nth_error_In _ _ Hi). }
  destruct a; unfold fire; rewrite ?Hp; try reflexivity.
  all: destruct (nth_error (workers s) i) as [x|] eqn:Ei; [|reflexivity];
       rewrite (Hnth i x Ei); reflexivity.
Qed.

Lemma pool_returned_drained N input s :
  pool_inv N input s -> producer s = P_returned ->
  ch_closed s = true /\ ch_buf s = [] /\ Forall (eq W_done) (workers s).
Proof.
  intros [Hcap Hws Hbuf Hwg Hcl Hdone Hret _] Hp.
  specialize (Hret Hp). rewrite Hwg in Hret.
  assert (Hall : Forall (eq W_done) (workers s))
    by (apply live_count_0; lia).
  rewrite Hp in Hcl. split; [exact Hcl|]. split; [|exact Hall].
  destruct (workers s) as [|x ws] eqn:Ew.
  - simpl in Hws. destruct (ch_buf s); [reflexivity|simpl in Hbuf; lia].
  - apply Hdone. inversion Hall; subst. now left.
Qed.

(** ** Claims on the pool *)

(** C1. Started with at least one worker, [RunE] prints exactly one
    result line per domain it read before the first empty line or the
    end of the input.  Whatever the interleaving of the goroutines: a
    run is never longer than the measure of the initial state, some
    goroutine can step as long as [RunE] has not returned, nothing moves
    after the return, and at the return the printed lines match, one to
    one, a permutation of the consumed domains, each line being
    [https://d/], [https://www.d/] or [http://d/] for its domain [d].
    Some run does reach the return. *)
Theorem RunE_one_line_per_domain env fuel debug concurrency input :
  0 < concurrency ->
  (Z.to_nat ResolverRetries <= fuel)%nat ->
  exists s0,
    pool_init concurrency input = Some s0 /\
    (forall sched s,
       run env fuel debug sched s0 = Some s ->
       (List.length sched <= pool_measure s0)%nat /\
       (producer s <> P_returned ->
        exists a s', fire env fuel debug a s = Some s') /\
       (producer s = P_returned ->
        (forall a, fire env fuel debug a s = None) /\
        List.length (stdout_of (trace (world s)))
        = List.length (consumed input) /\
        exists ds,
          Permutation ds (consumed input) /\
          Forall2 result_line ds (stdout_of (trace (world s))))) /\
    (exists sched s,
       run env fuel debug sched s0 = Some s /\ producer s = P_returned).
Proof.
  intros HN Hf. change (Z.to_nat ResolverRetries) with 5%nat in Hf.
  destruct (pool_init concurrency input) as [s0|] eqn:Hinit.
  2: { unfold pool_init in Hinit.
       destruct (concurrency <? 0) eqn:E; [|discriminate].
       apply Z.ltb_lt in E. lia. }
  pose proof (pool_init_inv _ _ _ Hinit) as Hinv0.
  exists s0. split; [reflexivity|]. split.
  - intros sched s Hrun.
    pose proof (run_inv _ _ _ _ _ _ _ _ Hinv0 Hrun) as Hinv.
    split; [pose proof (run_measure _ _ _ _ _ _ Hrun); lia|].
    split; [exact (pool_progress env fuel debug _ _ s HN Hf Hinv)|].
    intros Hp.
    split; [intros a; exact (pool_returned_final _ _ _ _ _ _ a Hinv Hp)|].
    destruct (pool_returned_drained _ _ _ Hinv Hp) as [_ [Hbuf Hall]].
    destruct Hinv as [_ _ _ _ _ _ _ [processed [Hout Hperm]]].
    assert (Hbusy : busy_domains (workers s) = []).
    { clear -Hall. induction Hall as [|x l <- _ IH]; [reflexivity|exact IH]. }
    rewrite Hbusy, Hbuf, Hp in Hperm. simpl in Hperm.
    rewrite app_nil_r in Hperm.
    split.
    + rewrite <- (Forall2_length Hout). exact (Permutation_length Hperm).
    + exists processed. now split.
  - exact (pool_completes env fuel debug _ _ HN Hf _ s0 (le_n _) Hinv0).
Qed.

Lemma RunE_one_line_per_domain_witness :
  exists s0,
    pool_init 2 sample_input = Some s0 /\
    (forall sched s,
       run env_up 5 false sched s0 = Some s ->
       (List.length sched <= pool_measure s0)%nat /\
       (producer s <> P_returned ->
        exists a s', fire env_up 5 false a s = Some s') /\
       (producer s = P_returned ->
        (forall a, fire env_up 5 false a s = None) /\
        List.length (stdout_of (trace (world s)))
        = List.length (consumed sample_input) /\
        exists ds,
          Permutation ds (consumed sample_input) /\
          Forall2 result_line ds (stdout_of (trace (world s))))) /\
    (exists sched s,
       run env_up 5 false sched s0 = Some s /\ producer s = P_returned).
Proof.
  apply (RunE_one_line_per_domain env_up 5 false 2 sample_input).
  - lia.
  - vm_compute. lia.
Defined.

(** C9. In every state of the pool started with the flag [N], there are
    exactly [N] workers, so at most [N] loop bodies (probes) are under
    way; the channel holds at most [N] domains and the send is enabled
    exactly when it holds fewer, so the producer is blocked while it is
    full; and [RunE] has returned only if the channel is closed and
    empty and every worker has left its loop. *)
Theorem pool_bounded_by_concurrency env fuel debug N input s :
  reachable env fuel debug N input s ->
  Z.of_nat (List.length (workers s)) = N /\
  Z.of_nat (busy_count (workers s)) <= N /\
  ch_cap s = N /\
  Z.of_nat (List.length (ch_buf s)) <= N /\
  (forall t rest, producer s = P_send t rest ->
     (Z.of_nat (List.length (ch_buf s)) = N ->
      fire env fuel debug Act_send s = None) /\
     (Z.of_nat (List.length (ch_buf s)) < N ->
      fire env fuel debug Act_send s <> None)) /\
  (producer s = P_returned ->
     ch_closed s = true /\ ch_buf s = [] /\ Forall (eq W_done) (workers s)).
Proof.
  intros Hreach. pose proof (reachable_inv _ _ _ _ _ _ Hreach) as Hinv.
  pose proof (pool_returned_drained _ _ _ Hinv) as Hret.
  destruct Hinv as [Hcap Hws Hbuf _ _ _ _ _].
  split; [exact Hws|].
  split; [pose proof (busy_count_le (workers s)); lia|].
  split; [exact Hcap|]. split; [exact Hbuf|].
  split; [|exact Hret].
  intros t rest Hp. unfold fire. rewrite Hp, Hcap. split; intros Hlen.
  - rewrite Hlen, Z.ltb_irrefl. reflexivity.
  - apply Z.ltb_lt in Hlen. rewrite Hlen. discriminate.
Qed.

Lemma pool_bounded_by_concurrency_witness :
  Z.of_nat (List.length (workers sample_pool)) = 2 /\
  Z.of_nat (busy_count (workers sample_pool)) <= 2 /\
  ch_cap sample_pool = 2 /\
  Z.of_nat (List.length (ch_buf sample_pool)) <= 2 /\
  (forall t rest, producer sample_pool = P_send t rest ->
     (Z.of_nat (List.length (ch_buf sample_pool)) = 2 ->
      fire env_up 5 false Act_send sample_pool = None) /\
     (Z.of_nat (List.length (ch_buf sample_pool)) < 2 ->
      fire env_up 5 false Act_send sample_pool <> None)) /\
  (producer sample_pool = P_returned ->
     ch_closed sample_pool = true /\ ch_buf sample_pool = [] /\
     Forall (eq W_done) (workers sample_pool)).
Proof.
  apply (pool_bounded_by_concurrency env_up 5 false 2 sample_input sample_pool).
  eexists _, sample_sched. split; reflexivity.
Defined.

(** With [--concurrency 0] the channel is unbuffered and no worker reads
    it: the first send blocks for ever and nothing is printed (the Go
    runtime ends the process on this deadlock).  The claims on the pool
    are stated for a positive flag. *)
Lemma RunE_no_worker_blocks :
  reachable env_up 5 false 0 sample_input pool_no_worker /\
  producer pool_no_worker = P_send "example.com"
                              ["example.org"; "example.net"; ""; "ignored.test"] /\
  stdout_of (trace (world pool_no_worker)) = [] /\
  forall a, fire env_up 5 false a pool_no_worker = None.
Proof.
  split; [eexists _, [Act_read]; split; reflexivity|].
  split; [reflexivity|]. split; [reflexivity|].
  intros [ | |i|i|i| ]; try reflexivity; destruct i; reflexivity.
Qed.

(** A negative flag makes [make] panic before any goroutine starts. *)
Lemma RunE_negative_flag_panics input : pool_init (-1) input = None.
Proof. reflexivity. Qed.

(* ================================================================== *)
(** * Further properties of the code *)

(** ** [resolver] and [resolve] *)

(** X1. [resolver] never indexes [Resolvers] out of range, whatever word
    the random source yields (the sign bit is cleared before the
    remainder is taken): it returns a server of the pool and only draws
    one number; and a source word [i] below 8 selects the [i]-th server,
    so every server of the pool can be selected. *)
Theorem resolver_in_pool env w :
  (exists res,
     resolver env w = Returns res (advance 1 0 0 [] w) /\
     In res Resolvers) /\
  (forall i, 0 <= i < 8 -> rand_src env (n_rand w) = i ->
     exists res, resolver env w = Returns res (advance 1 0 0 [] w) /\
                 nth_error Resolvers (Z.to_nat i) = Some res).
Proof.
  split.
  - exists (pick env w 0). split; [apply resolver_spec|apply pick_in_Resolvers].
  - intros i Hi Hsrc. exists (pick env w 0). split; [apply resolver_spec|].
    unfold pick. rewrite Nat.add_0_r, Hsrc.
    change (2 ^ 63 - 1) with (Z.ones 63). rewrite Z.land_ones by lia.
    rewrite (Z.mod_small i) by lia.
    change (Z.of_nat (List.length Resolvers)) with 8.
    rewrite Z.rem_small by lia.
    apply nth_error_nth'. change (List.length Resolvers) with 8%nat. lia.
Qed.

Lemma resolver_in_pool_witness :
  exists res, resolver env_down world0 = Returns res (advance 1 0 0 [] world0) /\
              nth_error Resolvers (Z.to_nat 1) = Some res.
Proof.
  apply (proj2 (resolver_in_pool env_down world0) 1); [lia|reflexivity].
Defined.

Lemma spec_reply_result_cases domain m :
  (exists ips, ips <> [] /\ spec_reply_result domain m = (ips, None)) \/
  spec_reply_result domain m = ([], Some (EmptyAnswer domain)) \/
  spec_reply_result domain m = ([], Some (NoAddressRecord domain)).
Proof.
  unfold spec_reply_result. destruct (Answer m) as [|rr rest]; [now right; left|].
  destruct (spec_addresses (rr :: rest)) as [|ip ips]; [now right; right|].
  left. exists (ip :: ips). split; [discriminate|reflexivity].
Qed.

(** The shape of what [resolve] returns and of the world it leaves. *)
Lemma resolve_Returns_full env fuel domain w r w' :
  resolve env fuel domain w = Returns r w' ->
  exists j,
    (j <= 4)%nat /\
    w' = advance (S j) (S j) 0
           (loop_trace (query_A domain) 0 (map (pick env w) (seq 0 (S j)))) w /\
    r = match in_of (attempt env w (query_A domain) j) with
        | None => ([], Some (ResolutionTimeout (S j)
                               (map (pick env w) (seq 0 (S j))) domain))
        | Some m => spec_reply_result domain m
        end.
Proof.
  intros H. destruct (resolve_Returns_inv _ _ _ _ _ _ H) as [in_ [tr Hloop]].
  rewrite (resolve_after_loop _ _ _ _ _ _ _ Hloop) in H.
  destruct (resolve_loop_inv _ _ _ _ _ _ Hloop)
    as [j [Hj [_ [_ [_ [Hr Hw]]]]]].
  injection Hr as -> ->. injection H as <-.
  exists j. split; [exact Hj|]. split; [exact Hw|].
  now rewrite length_map, length_seq.
Qed.

(** X2. [resolve] returns either addresses without an error, and then at
    least one address, or no address with one of its three errors, each
    naming the domain it was asked for; it never returns an error
    together with addresses, an empty list without an error, or an
    error of the handshake kind. *)
Theorem resolve_result_shape env fuel domain w ips err w' :
  resolve env fuel domain w = Returns (ips, err) w' ->
  (err = None /\ ips <> []) \/
  (ips = [] /\
   (err = Some (EmptyAnswer domain) \/
    err = Some (NoAddressRecord domain) \/
    exists n tried, err = Some (ResolutionTimeout n tried domain))).
Proof.
  intros H. destruct (resolve_Returns_full _ _ _ _ _ _ H) as [j [_ [_ Hr]]].
  destruct (in_of (attempt env w (query_A domain) j)) as [m|].
  - destruct (spec_reply_result_cases domain m) as [[l [Hl E]]|[E|E]];
      rewrite E in Hr; injection Hr as -> ->.
    + left. now split.
    + right. split; [reflexivity|now left].
    + right. split; [reflexivity|right; now left].
  - injection Hr as -> ->. right. split; [reflexivity|].
    right; right. eauto.
Qed.

Lemma resolve_result_shape_witness :
  (Some error_down_bare = None /\ @nil string <> []) \/
  (@nil string = [] /\
   (Some error_down_bare = Some (EmptyAnswer "deadsite.test") \/
    Some error_down_bare = Some (NoAddressRecord "deadsite.test") \/
    exists n tried,
      Some error_down_bare = Some (ResolutionTimeout n tried "deadsite.test"))).
Proof.
  apply (resolve_result_shape env_down 5 "deadsite.test" world0 []
           (Some error_down_bare) world_down_resolved).
  reflexivity.
Defined.

Lemma loop_trace_no_stderr ma : forall tried len,
  stderr_of (loop_trace ma len tried) = [].
Proof.
  induction tried as [|a [|b rest] IH]; intros len; try reflexivity.
  rewrite loop_trace_cons, stderr_of_app, IH. reflexivity.
Qed.

Lemma loop_trace_dns domain : forall tried len,
  Forall (fun res => In res Resolvers) tried ->
  Forall (dns_event domain) (loop_trace (query_A domain) len tried).
Proof.
  induction tried as [|a [|b rest] IH]; intros len Hin.
  - constructor.
  - inversion Hin; subst. repeat constructor. now exists a.
  - inversion Hin; subst. rewrite loop_trace_cons.
    apply Forall_app. split; [|apply IH; assumption].
    repeat constructor. now exists a.
Qed.

(** X3. Whatever it returns, [resolve] only exchanges DNS messages and
    sleeps: every message is the single A question for [domain.], sent
    to port 53 of a server of [Resolvers]; it opens no connection and
    writes nothing to standard output or standard error. *)
Theorem resolve_only_dns env fuel domain w r w' :
  resolve env fuel domain w = Returns r w' ->
  exists t,
    trace w' = trace w ++ t /\
    Forall (dns_event domain) t /\
    dials_of t = [] /\ closes_of t = [] /\
    stdout_of t = [] /\ stderr_of t = [] /\
    n_dial w' = n_dial w.
Proof.
  intros H. destruct (resolve_Returns_full _ _ _ _ _ _ H) as [j [_ [Hw _]]].
  set (tried := map (pick env w) (seq 0 (S j))) in *.
  exists (loop_trace (query_A domain) 0 tried).
  assert (Hdns : Forall (dns_event domain) (loop_trace (query_A domain) 0 tried))
    by (apply loop_trace_dns, picks_in_Resolvers).
  split; [now rewrite Hw|]. split; [exact Hdns|].
  destruct (loop_trace_no_dial (query_A domain) tried 0) as [Hd Ho].
  split; [exact Hd|]. split; [apply loop_trace_no_close|].
  split; [exact Ho|]. split; [apply loop_trace_no_stderr|].
  rewrite Hw. unfold advance; simpl. lia.
Qed.

Lemma resolve_only_dns_witness :
  exists t,
    trace world_down_resolved = trace world0 ++ t /\
    Forall (dns_event "deadsite.test") t /\
    dials_of t = [] /\ closes_of t = [] /\
    stdout_of t = [] /\ stderr_of t = [] /\
    n_dial world_down_resolved = n_dial world0.
Proof.
  apply (resolve_only_dns env_down 5 "deadsite.test" world0
           ([], Some error_down_bare) world_down_resolved).
  reflexivity.
Defined.

Lemma backoff_total j :
  (j <= 4)%nat ->
  total (map backoff (seq 1 j))
  = 50 * Z.of_nat j * (Z.of_nat j + 1) * Millisecond.
Proof.
  intros Hj. destruct j as [|[|[|[|[|j]]]]]; try reflexivity. lia.
Qed.

(** X4. A call of [resolve] sleeps once between two consecutive
    exchanges and never after the last one: with [n] sleeps there are
    [n + 1] exchanges, [n] is at most 4, and the sleeps add up to
    [50 * n * (n + 1)] milliseconds, one second at most. *)
Theorem resolve_backoff_total env fuel domain w r w' :
  resolve env fuel domain w = Returns r w' ->
  exists t,
    trace w' = trace w ++ t /\
    List.length (exchanges_of t) = S (List.length (sleeps_of t)) /\
    (List.length (sleeps_of t) <= 4)%nat /\
    total (sleeps_of t)
    = 50 * Z.of_nat (List.length (sleeps_of t))
         * (Z.of_nat (List.length (sleeps_of t)) + 1) * Millisecond /\
    total (sleeps_of t) <= Second.
Proof.
  intros H. destruct (resolve_Returns_full _ _ _ _ _ _ H) as [j [Hj [Hw _]]].
  exists (loop_trace (query_A domain) 0 (map (pick env w) (seq 0 (S j)))).
  split; [now rewrite Hw|].
  rewrite loop_trace_exchanges, loop_trace_sleeps,
    !length_map, !length_seq.
  replace (S j - 1)%nat with j by lia.
  split; [reflexivity|]. split; [exact Hj|].
  rewrite (backoff_total j Hj). split; [reflexivity|].
  unfold Second, Millisecond. nia.
Qed.

Lemma resolve_backoff_total_witness :
  exists t,
    trace world_down_resolved = trace world0 ++ t /\
    List.length (exchanges_of t) = S (List.length (sleeps_of t)) /\
    (List.length (sleeps_of t) <= 4)%nat /\
    total (sleeps_of t)
    = 50 * Z.of_nat (List.length (sleeps_of t))
         * (Z.of_nat (List.length (sleeps_of t)) + 1) * Millisecond /\
    total (sleeps_of t) <= Second.
Proof.
  apply (resolve_backoff_total env_down 5 "deadsite.test" world0
           ([], Some error_down_bare) world_down_resolved).
  reflexivity.
Defined.

(** X5. The error of an exchange is only looked at inside the loop.
    When all five attempts end in an error but the fifth hands back a
    message all the same (a packet that did not decode completely),
    [resolve] does not report the retry exhaustion: it drops the error
    and classifies that message like a proper reply. *)
Theorem resolve_keeps_partial_message env fuel domain w m :
  (Z.to_nat ResolverRetries <= fuel)%nat ->
  (forall i, (i < 5)%nat ->
     err_of (attempt env w (query_A domain) i) <> None) ->
  in_of (attempt env w (query_A domain) 4) = Some m ->
  exists w',
    resolve env fuel domain w = Returns (spec_reply_result domain m) w' /\
    n_exchange w' = (n_exchange w + 5)%nat /\
    forall n tried d,
      snd (spec_reply_result domain m) <> Some (ResolutionTimeout n tried d).
Proof.
  intros Hf Hall Hlast. change (Z.to_nat ResolverRetries) with 5%nat in Hf.
  pose proof (resolve_loop_spec env (query_A domain) 4 fuel [] w) as Hloop.
  cbv zeta in Hloop. simpl app in Hloop. simpl List.length in Hloop.
  specialize (Hloop ltac:(lia)
                (fun i Hi => stops_of_err env w _ i Hi (Hall i ltac:(lia)))
                (stops_at_ceiling env w _)).
  rewrite Hlast in Hloop.
  eexists. split; [exact (resolve_after_loop _ _ _ _ _ _ _ Hloop)|].
  split; [reflexivity|].
  intros n tried d E.
  apply (spec_reply_result_not_timeout domain m
           (fst (spec_reply_result domain m)) n tried d).
  destruct (spec_reply_result domain m); simpl in *. now subst.
Qed.

Lemma resolve_keeps_partial_message_witness :
  exists w',
    resolve env_garbled 5 "example.com" world0
      = Returns (spec_reply_result "example.com" reply_A) w' /\
    n_exchange w' = (n_exchange world0 + 5)%nat /\
    forall n tried d,
      snd (spec_reply_result "example.com" reply_A)
      <> Some (ResolutionTimeout n tried d).
Proof.
  apply (resolve_keeps_partial_message env_garbled 5 "example.com" world0 reply_A).
  - vm_compute. lia.
  - intros i Hi.
    destruct i as [|[|[|[|[|i]]]]]; try (vm_compute; discriminate); lia.
  - reflexivity.
Defined.

(** ** [probeHttps] *)

Lemma said_dial debug lastErr dialer ip domain :
  let t1 := match debug, lastErr with
            | true, Some e => [EvStderr (Error e ++ newline)%string]
            | _, _ => []
            end ++ [EvDial dialer "tcp" (ip ++ ":443")%string domain] in
  dials_of t1 = [((ip ++ ":443")%string, domain)] /\
  closes_of t1 = [] /\ exchanges_of t1 = [] /\ stdout_of t1 = [] /\
  sleeps_of t1 = [] /\
  In (EvDial dialer "tcp" (ip ++ ":443")%string domain) t1.
Proof.
  destruct debug, lastErr as [e|]; simpl; repeat split; auto.
Qed.

(** A nil result of the loop comes from a handshake that succeeded. *)
Lemma probe_loop_nil_inv env dialer domain debug : forall ips lastErr w w',
  probe_loop env dialer domain debug lastErr ips w = Returns None w' ->
  (ips = [] /\ lastErr = None /\ w' = w) \/
  exists pre ip post t,
    ips = pre ++ ip :: post /\
    net_dial env (n_dial w + List.length pre) dialer (ip ++ ":443")%string domain
      = None /\
    w' = advance 0 0 (S (List.length pre)) t w /\
    dials_of t = map (fun a => ((a ++ ":443")%string, domain)) (pre ++ [ip]) /\
    closes_of t = [(n_dial w + List.length pre)%nat] /\
    In (EvDial dialer "tcp" (ip ++ ":443")%string domain) t /\
    exchanges_of t = [] /\ stdout_of t = [] /\ sleeps_of t = [].
Proof.
  induction ips as [|ip rest IH]; intros lastErr w w' H.
  - left. injection H as -> ->. auto.
  - right. rewrite probe_loop_cons in H. cbv zeta in H.
    destruct (said_dial debug lastErr dialer ip domain)
      as [Hd1 [Hc1 [Hx1 [Ho1 [Hs1 Hin1]]]]].
    destruct (net_dial env (n_dial w) dialer (ip ++ ":443")%string domain)
      as [err|] eqn:E.
    + destruct (IH _ _ _ H)
        as [[_ [Hno _]]|[pre [ip' [post [t [-> [Hok [-> [Hd [Hc [Hin [Hx [Ho Hs]]]]]]]]]]]]];
        [discriminate|].
      set (t1 := _ ++ [EvDial _ _ _ _]) in *.
      replace (n_dial (advance 0 0 1 t1 w) + List.length pre)%nat
        with (n_dial w + List.length (ip :: pre))%nat in *
        by (unfold advance; simpl; lia).
      exists (ip :: pre), ip', post, (t1 ++ t).
      rewrite advance_advance, dials_of_app, closes_of_app, exchanges_of_app,
        stdout_of_app, sleeps_of_app, Hd1, Hc1, Hx1, Ho1, Hs1, Hd, Hc, Hx, Ho, Hs.
      repeat split; auto. apply in_or_app. now right.
    + injection H as <-.
      set (t1 := _ ++ [EvDial _ _ _ _]) in *.
      exists [], ip, rest. eexists. simpl List.length. rewrite Nat.add_0_r.
      split; [reflexivity|]. split; [exact E|]. split; [reflexivity|].
      clear t1 Hd1 Hc1 Hx1 Ho1 Hs1 Hin1.
      destruct debug, lastErr, (net_close env (n_dial w));
        repeat split; simpl; auto 10.
Qed.

(** An error of the loop means that no handshake succeeded. *)
Lemma probe_loop_err_inv env dialer domain debug : forall ips lastErr w e w',
  probe_loop env dialer domain debug lastErr ips w = Returns (Some e) w' ->
  forall i, (i < List.length ips)%nat ->
            dial_at env w dialer domain ips i <> None.
Proof.
  induction ips as [|ip rest IH]; intros lastErr w e w' H i Hi;
    [simpl in Hi; lia|].
  rewrite probe_loop_cons in H. cbv zeta in H.
  destruct (net_dial env (n_dial w) dialer (ip ++ ":443")%string domain)
    as [err|] eqn:E; [|discriminate].
  destruct i as [|i].
  - rewrite dial_at_0, E. discriminate.
  - pose proof (IH _ _ _ _ H i ltac:(simpl in Hi; lia)) as Hi'.
    rewrite (dial_at_shift env w dialer domain ip) in Hi'. exact Hi'.
Qed.

Lemma resolve_ok_nonempty env fuel domain w ips w1 :
  resolve env fuel domain w = Returns (ips, None) w1 -> ips <> [].
Proof.
  intros H. destruct (resolve_Returns_full _ _ _ _ _ _ H) as [j [_ [_ Hr]]].
  destruct (in_of (attempt env w (query_A domain) j)) as [m|];
    [|discriminate].
  exact (spec_reply_result_nonempty domain m ips (eq_sym Hr)).
Qed.

Lemma probeHttps_nil_inv env fuel dialer domain debug w w' :
  probeHttps env fuel dialer domain debug w = Returns None w' ->
  exists ips w1 pre ip post t,
    resolve env fuel domain w = Returns (ips, None) w1 /\
    ips = pre ++ ip :: post /\
    net_dial env (n_dial w + List.length pre) dialer (ip ++ ":443")%string domain
      = None /\
    trace w' = trace w1 ++ t /\
    dials_of t = map (fun a => ((a ++ ":443")%string, domain)) (pre ++ [ip]) /\
    closes_of t = [(n_dial w + List.length pre)%nat] /\
    In (EvDial dialer "tcp" (ip ++ ":443")%string domain) t /\
    exchanges_of t = [] /\ stdout_of t = [] /\ sleeps_of t = [].
Proof.
  intros H.
  destruct (probeHttps_Returns_inv _ _ _ _ _ _ _ _ H) as [ips [err [w1 Hres]]].
  rewrite (probeHttps_after_resolve _ _ dialer _ debug _ _ _ _ Hres) in H.
  destruct err as [e|]; [discriminate|].
  pose proof (resolve_ok_nonempty _ _ _ _ _ _ Hres) as Hne.
  destruct (resolve_Returns_full _ _ _ _ _ _ Hres) as [j [_ [Hw1 _]]].
  assert (Hn : n_dial w1 = n_dial w) by (rewrite Hw1; unfold advance; simpl; lia).
  destruct (probe_loop_nil_inv _ _ _ _ _ _ _ _ H)
    as [[Hnil _]|[pre [ip [post [t [Hips [Hok [Hw' [Hd [Hc [Hin [Hx [Ho Hs]]]]]]]]]]]]];
    [congruence|].
  rewrite Hn in Hok, Hc.
  exists ips, w1, pre, ip, post, t. repeat split; auto.
  now rewrite Hw'.
Qed.

Lemma probeHttps_err_inv env fuel dialer domain debug w e w' :
  probeHttps env fuel dialer domain debug w = Returns (Some e) w' ->
  (exists ips, resolve env fuel domain w = Returns (ips, Some e) w') \/
  (exists ips w1 t cause,
     resolve env fuel domain w = Returns (ips, None) w1 /\
     ips <> [] /\
     e = HandshakeFailure domain (last ips EmptyString) cause /\
     dial_at env w1 dialer domain ips (List.length ips - 1) = Some cause /\
     trace w' = trace w1 ++ t /\
     handshakes_only debug domain ips t /\
     closes_of t = []).
Proof.
  intros H.
  destruct (probeHttps_Returns_inv _ _ _ _ _ _ _ _ H) as [ips [err [w1 Hres]]].
  rewrite (probeHttps_after_resolve _ _ dialer _ debug _ _ _ _ Hres) in H.
  destruct err as [e0|].
  - injection H as <- <-. left. now exists ips.
  - right. pose proof (resolve_ok_nonempty _ _ _ _ _ _ Hres) as Hne.
    pose proof (probe_loop_err_inv _ _ _ _ _ _ _ _ _ H) as Hall.
    destruct (probe_loop_all_fail env dialer domain debug ips None w1 Hall)
      as [t [Hrun [Hshape Hclose]]].
    rewrite Hrun in H. injection H as He <-.
    unfold last_failure in He.
    destruct ips as [|ip rest]; [congruence|].
    destruct (dial_at env w1 dialer domain (ip :: rest)
                (List.length (ip :: rest) - 1)) as [cause|] eqn:E;
      [|discriminate].
    injection He as <-.
    exists (ip :: rest), w1, t, cause.
    split; [exact Hres|]. split; [discriminate|]. split; [reflexivity|].
    split; [exact E|]. split; [reflexivity|].
    split; [exact Hshape|exact Hclose].
Qed.

(** X6. [probeHttps] returns nil only when a TLS handshake really
    succeeded: [resolve] returned addresses, the handshake loop dialled
    them in order up to and including an address whose handshake
    succeeded, closed that one connection, and dialled none of the
    addresses behind it. *)
Theorem probeHttps_nil_means_handshake env fuel dialer domain debug w w' :
  probeHttps env fuel dialer domain debug w = Returns None w' ->
  exists ips w1 pre ip post t,
    resolve env fuel domain w = Returns (ips, None) w1 /\
    ips = pre ++ ip :: post /\
    net_dial env (n_dial w + List.length pre) dialer (ip ++ ":443")%string domain
      = None /\
    trace w' = trace w1 ++ t /\
    dials_of t = map (fun a => ((a ++ ":443")%string, domain)) (pre ++ [ip]) /\
    closes_of t = [(n_dial w + List.length pre)%nat] /\
    handshake_ok env dialer domain t.
Proof.
  intros H.
  destruct (probeHttps_nil_inv _ _ _ _ _ _ _ H)
    as [ips [w1 [pre [ip [post [t [Hres [Hips [Hok [Ht [Hd [Hc [Hin _]]]]]]]]]]]]].
  exists ips, w1, pre, ip, post, t. repeat split; auto.
  exists ip, (n_dial w + List.length pre)%nat. repeat split; auto.
  assert (In (n_dial w + List.length pre)%nat (closes_of t))
    by (rewrite Hc; now left).
  unfold closes_of in H0. apply in_flat_map in H0.
  destruct H0 as [ev [Hev Hk]].
  destruct ev; simpl in Hk; try contradiction.
  destruct Hk as [->|[]]. exact Hev.
Qed.

Lemma probeHttps_nil_means_handshake_witness :
  exists ips w1 pre ip post t,
    resolve env_up 5 "example.com" world0 = Returns (ips, None) w1 /\
    ips = pre ++ ip :: post /\
    net_dial env_up (n_dial world0 + List.length pre) new_dialer
      (ip ++ ":443")%string "example.com" = None /\
    trace world_up_probe = trace w1 ++ t /\
    dials_of t
    = map (fun a => ((a ++ ":443")%string, "example.com")) (pre ++ [ip]) /\
    closes_of t = [(n_dial world0 + List.length pre)%nat] /\
    handshake_ok env_up new_dialer "example.com" t.
Proof.
  apply (probeHttps_nil_means_handshake env_up 5 new_dialer "example.com"
           false world0 world_up_probe).
  reflexivity.
Defined.

(** X7. An error of [probeHttps] is either the error of [resolve], and
    then no address was dialled, or the handshake error of the last
    address [resolve] returned, and then every address was dialled, in
    order, each handshake failed and no connection was opened or
    closed. *)
Theorem probeHttps_error_cases env fuel dialer domain debug w e w' :
  probeHttps env fuel dialer domain debug w = Returns (Some e) w' ->
  (exists ips t,
     resolve env fuel domain w = Returns (ips, Some e) w' /\
     trace w' = trace w ++ t /\ dials_of t = [] /\ closes_of t = []) \/
  (exists ips w1 t cause,
     resolve env fuel domain w = Returns (ips, None) w1 /\
     ips <> [] /\
     e = HandshakeFailure domain (last ips EmptyString) cause /\
     dial_at env w1 dialer domain ips (List.length ips - 1) = Some cause /\
     (forall i, (i < List.length ips)%nat ->
        dial_at env w1 dialer domain ips i <> None) /\
     trace w' = trace w1 ++ t /\
     dials_of t = map (fun a => ((a ++ ":443")%string, domain)) ips /\
     closes_of t = []).
Proof.
  intros H.
  destruct (probeHttps_err_inv _ _ _ _ _ _ _ _ H)
    as [[ips Hres]|[ips [w1 [t [cause [Hres [Hne [He [Hlast [Ht [Hshape Hc]]]]]]]]]]].
  - left. destruct (resolve_Returns_shape _ _ _ _ _ _ Hres)
      as [n [t [Hw [Hd [_ Hc]]]]].
    exists ips, t. repeat split; auto. now rewrite Hw.
  - right. exists ips, w1, t, cause. repeat split; auto; try apply Hshape.
    rewrite (probeHttps_after_resolve _ _ dialer _ debug _ _ _ _ Hres) in H.
    exact (probe_loop_err_inv _ _ _ _ _ _ _ _ _ H).
Qed.

Lemma probeHttps_error_cases_witness :
  (exists ips t,
     resolve env_second 5 "example.com" world0
       = Returns (ips, Some (HandshakeFailure "example.com" "93.184.216.34"
                               "connection refused")) world_second_probe /\
     trace world_second_probe = trace world0 ++ t /\
     dials_of t = [] /\ closes_of t = []) \/
  (exists ips w1 t cause,
     resolve env_second 5 "example.com" world0 = Returns (ips, None) w1 /\
     ips <> [] /\
     HandshakeFailure "example.com" "93.184.216.34" "connection refused"
     = HandshakeFailure "example.com" (last ips EmptyString) cause /\
     dial_at env_second w1 new_dialer "example.com" ips (List.length ips - 1)
       = Some cause /\
     (forall i, (i < List.length ips)%nat ->
        dial_at env_second w1 new_dialer "example.com" ips i <> None) /\
     trace world_second_probe = trace w1 ++ t /\
     dials_of t = map (fun a => ((a ++ ":443")%string, "example.com")) ips /\
     closes_of t = []).
Proof.
  apply (probeHttps_error_cases env_second 5 new_dialer "example.com" false
           world0 _ world_second_probe).
  reflexivity.
Defined.

(** ** The loop body *)

(** A run of the loop body is one probe, or two probes when the first
    one fails. *)
Lemma classify_Returns_cases env fuel dialer debug domain w u w' :
  classify env fuel dialer debug domain w = Returns u w' ->
  (exists w1,
     probeHttps env fuel dialer domain debug w = Returns None w1 /\
     w' = advance 0 0 0 [EvStdout (url_https domain ++ newline)%string] w1) \/
  (exists e1 w1 r w2,
     probeHttps env fuel dialer domain debug w = Returns (Some e1) w1 /\
     probeHttps env fuel dialer ("www." ++ domain)%string debug
       (advance 0 0 0 (logged debug e1) w1) = Returns r w2 /\
     w' = advance 0 0 0
            (match r with
             | Some e2 =>
                 logged debug e2 ++ [EvStdout (url_http domain ++ newline)%string]
             | None => [EvStdout (url_https_www domain ++ newline)%string]
             end) w2).
Proof.
  intros H.
  destruct (probeHttps env fuel dialer domain debug w) as [[e1|] w1| |] eqn:E1.
  - right.
    destruct (probeHttps env fuel dialer ("www." ++ domain)%string debug
                (advance 0 0 0 (logged debug e1) w1)) as [r w2| |] eqn:E2.
    + rewrite (classify_www _ _ _ _ _ _ _ _ _ _ E1 E2) in H.
      injection H as _ <-. now exists e1, w1, r, w2.
    + unfold classify in H. cbv zeta in H.
      rewrite (bind_Returns _ _ _ _ _ E1) in H.
      unfold bind at 1 in H. rewrite log_then in H.
      unfold bind at 1 in H. rewrite E2 in H. discriminate.
    + unfold classify in H. cbv zeta in H.
      rewrite (bind_Returns _ _ _ _ _ E1) in H.
      unfold bind at 1 in H. rewrite log_then in H.
      unfold bind at 1 in H. rewrite E2 in H. discriminate.
  - left. rewrite (classify_bare _ _ _ _ _ _ _ E1) in H. injection H as _ <-.
    now exists w1.
  - unfold classify, bind in H. cbv zeta in H. rewrite E1 in H. discriminate.
  - unfold classify, bind in H. cbv zeta in H. rewrite E1 in H. discriminate.
Qed.

Lemma handshake_ok_app env dialer name t0 t :
  handshake_ok env dialer name t -> handshake_ok env dialer name (t0 ++ t).
Proof.
  intros [ip [k [Hd [Hc Hok]]]]. exists ip, k.
  repeat split; auto; apply in_or_app; now right.
Qed.

Lemma In_closes_of k t : In k (closes_of t) -> In (EvClose k) t.
Proof.
  unfold closes_of. intros H. apply in_flat_map in H.
  destruct H as [ev [Hev Hk]].
  destruct ev; simpl in Hk; try contradiction.
  destruct Hk as [->|[]]. exact Hev.
Qed.

(** What a successful and a failed probe leave in the trace. *)
Lemma probeHttps_nil_summary env fuel dialer name debug w w' :
  probeHttps env fuel dialer name debug w = Returns None w' ->
  exists t, trace w' = trace w ++ t /\ stdout_of t = [] /\
            handshake_ok env dialer name t /\
            (1 <= List.length (exchanges_of t) <= 5)%nat /\
            0 <= total (sleeps_of t) <= Second.
Proof.
  intros H.
  destruct (probeHttps_nil_inv _ _ _ _ _ _ _ H)
    as [ips [w1 [pre [ip [post [t [Hres [Hips [Hok [Ht [Hd [Hc [Hin [Hx [Ho Hs]]]]]]]]]]]]]]].
  destruct (resolve_Returns_full _ _ _ _ _ _ Hres) as [j [Hj [Hw1 _]]].
  set (t1 := loop_trace _ _ _) in Hw1.
  exists (t1 ++ t).
  split; [rewrite Ht, Hw1; unfold advance; simpl; now rewrite app_assoc|].
  destruct (loop_trace_no_dial (query_A name)
              (map (pick env w) (seq 0 (S j))) 0) as [_ Ho1].
  fold t1 in Ho1.
  split; [now rewrite stdout_of_app, Ho1, Ho|].
  split.
  { apply handshake_ok_app.
    exists ip, (n_dial w + List.length pre)%nat. repeat split; auto.
    apply In_closes_of. rewrite Hc. now left. }
  rewrite exchanges_of_app, sleeps_of_app, Hx, Hs, !app_nil_r.
  subst t1. rewrite loop_trace_exchanges, loop_trace_sleeps,
    !length_map, !length_seq.
  replace (S j - 1)%nat with j by lia.
  rewrite (backoff_total j Hj).
  split; [lia|]. unfold Second, Millisecond. nia.
Qed.

Lemma probeHttps_err_summary env fuel dialer name debug w e w' :
  probeHttps env fuel dialer name debug w = Returns (Some e) w' ->
  exists t, trace w' = trace w ++ t /\ stdout_of t = [] /\
            closes_of t = [] /\
            (1 <= List.length (exchanges_of t) <= 5)%nat /\
            0 <= total (sleeps_of t) <= Second.
Proof.
  intros H.
  assert (Hbudget : forall w1 r, resolve env fuel name w = Returns r w1 ->
    exists t1, trace w1 = trace w ++ t1 /\ stdout_of t1 = [] /\
               closes_of t1 = [] /\
               (1 <= List.length (exchanges_of t1) <= 5)%nat /\
               0 <= total (sleeps_of t1) <= Second).
  { intros w1 r Hres.
    destruct (resolve_Returns_full _ _ _ _ _ _ Hres) as [j [Hj [Hw1 _]]].
    set (t1 := loop_trace _ _ _) in Hw1. exists t1.
    split; [now rewrite Hw1|].
    destruct (loop_trace_no_dial (query_A name)
                (map (pick env w) (seq 0 (S j))) 0) as [_ Ho1].
    split; [exact Ho1|]. split; [apply loop_trace_no_close|].
    subst t1. rewrite loop_trace_exchanges, loop_trace_sleeps,
      !length_map, !length_seq.
    replace (S j - 1)%nat with j by lia.
    rewrite (backoff_total j Hj).
    split; [lia|]. unfold Second, Millisecond. nia. }
  destruct (probeHttps_err_inv _ _ _ _ _ _ _ _ H)
    as [[ips Hres]|[ips [w1 [t [cause [Hres [_ [_ [_ [Ht [Hshape Hc]]]]]]]]]]].
  - exact (Hbudget _ _ Hres).
  - destruct (Hbudget _ _ Hres) as [t1 [Ht1 [Ho1 [Hc1 [Hx1 Hs1]]]]].
    destruct Hshape as [_ [Hx [Hs [Ho _]]]].
    exists (t1 ++ t).
    split; [rewrite Ht, Ht1; now rewrite app_assoc|].
    rewrite stdout_of_app, closes_of_app, exchanges_of_app, sleeps_of_app,
      Ho1, Ho, Hc1, Hc, Hx, Hs, !app_nil_r.
    repeat split; auto; lia.
Qed.

Lemma total_app l1 l2 : total (l1 ++ l2) = total l1 + total l2.
Proof.
  induction l1 as [|x l1 IH]; simpl; [reflexivity|]. rewrite IH. lia.
Qed.



(** X9. One run of the loop body sends at least one and at most ten DNS
    queries (two resolutions of at most five attempts each), sleeps two
    seconds at most in the retry pauses, and prints exactly one line. *)
Theorem classify_query_budget env fuel dialer debug domain w u w' :
  classify env fuel dialer debug domain w = Returns u w' ->
  exists t,
    trace w' = trace w ++ t /\
    (1 <= List.length (exchanges_of t) <= 10)%nat /\
    0 <= total (sleeps_of t) <= 2 * Second /\
    List.length (stdout_of t) = 1%nat.
Proof.
  intros H.
  assert (Hl : forall e, stdout_of (logged debug e) = [] /\
                         exchanges_of (logged debug e) = [] /\
                         sleeps_of (logged debug e) = [])
    by (intros e; unfold logged; destruct debug; repeat split; reflexivity).
  destruct (classify_Returns_cases _ _ _ _ _ _ _ _ H)
    as [[w1 [E1 ->]]|[e1 [w1 [r [w2 [E1 [E2 ->]]]]]]].
  - destruct (probeHttps_nil_summary _ _ _ _ _ _ _ E1)
      as [t [Ht [Ho [_ [Hx Hs]]]]].
    exists (t ++ [EvStdout (url_https domain ++ newline)%string]).
    split; [unfold advance; simpl; now rewrite Ht, app_assoc|].
    rewrite exchanges_of_app, sleeps_of_app, stdout_of_app, Ho, length_app,
      total_app.
    simpl. unfold Second, Millisecond in *. repeat split; lia.
  - destruct (probeHttps_err_summary _ _ _ _ _ _ _ _ E1)
      as [t1 [Ht1 [Ho1 [_ [Hx1 Hs1]]]]].
    destruct (Hl e1) as [Hlo1 [Hlx1 Hls1]].
    assert (Hsecond : exists t2, trace w2 = trace w ++ t1 ++ logged debug e1 ++ t2
              /\ stdout_of t2 = [] /\
              (1 <= List.length (exchanges_of t2) <= 5)%nat /\
              0 <= total (sleeps_of t2) <= Second).
    { destruct r as [e2|].
      - destruct (probeHttps_err_summary _ _ _ _ _ _ _ _ E2)
          as [t2 [Ht2 [Ho2 [_ [Hx2 Hs2]]]]].
        exists t2. repeat split; auto; try lia.
        rewrite Ht2. unfold advance; simpl. rewrite Ht1.
        now rewrite <- !app_assoc.
      - destruct (probeHttps_nil_summary _ _ _ _ _ _ _ E2)
          as [t2 [Ht2 [Ho2 [_ [Hx2 Hs2]]]]].
        exists t2. repeat split; auto; try lia.
        rewrite Ht2. unfold advance; simpl. rewrite Ht1.
        now rewrite <- !app_assoc. }
    destruct Hsecond as [t2 [Ht2 [Ho2 [Hx2 Hs2]]]].
    set (tail := match r with
                 | Some e2 =>
                     logged debug e2
                       ++ [EvStdout (url_http domain ++ newline)%string]
                 | None => [EvStdout (url_https_www domain ++ newline)%string]
                 end).
    assert (Htail : exchanges_of tail = [] /\ sleeps_of tail = [] /\
                    List.length (stdout_of tail) = 1%nat).
    { subst tail. destruct r as [e2|]; [|repeat split; reflexivity].
      destruct (Hl e2) as [Hlo2 [Hlx2 Hls2]].
      rewrite exchanges_of_app, sleeps_of_app, stdout_of_app, Hlo2, Hlx2, Hls2.
      repeat split; reflexivity. }
    destruct Htail as [Hxt [Hst Hot]].
    exists (t1 ++ logged debug e1 ++ t2 ++ tail).
    split; [unfold advance; simpl; rewrite Ht2; now rewrite <- !app_assoc|].
    rewrite !exchanges_of_app, !sleeps_of_app, !stdout_of_app, !length_app,
      !total_app, Hlx1, Hls1, Hlo1, Ho1, Ho2, Hxt, Hst, Hot.
    simpl. unfold Second, Millisecond in *. repeat split; lia.
Qed.

Lemma classify_query_budget_witness :
  exists t,
    trace world_up_classify = trace world0 ++ t /\
    (1 <= List.length (exchanges_of t) <= 10)%nat /\
    0 <= total (sleeps_of t) <= 2 * Second /\
    List.length (stdout_of t) = 1%nat.
Proof.
  apply (classify_query_budget env_up 5 new_dialer false "example.com" world0
           tt world_up_classify).
  reflexivity.
Defined.

(** ** The pool *)

Lemma probe_loop_quiet env dialer domain : forall ips lastErr w r w',
  probe_loop env dialer domain false lastErr ips w = Returns r w' ->
  stderr_of (trace w') = stderr_of (trace w).
Proof.
  induction ips as [|ip rest IH]; intros lastErr w r w' H.
  - injection H as _ <-. reflexivity.
  - rewrite probe_loop_cons in H. cbv zeta in H.
    destruct (net_dial env (n_dial w) dialer (ip ++ ":443")%string domain)
      as [err|].
    + rewrite (IH _ _ _ _ H). unfold advance; simpl.
      rewrite stderr_of_app. simpl. now rewrite app_nil_r.
    + injection H as _ <-. unfold advance; simpl.
      rewrite stderr_of_app.
      destruct (net_close env (n_dial w)); simpl; now rewrite app_nil_r.
Qed.

Lemma probeHttps_quiet env fuel dialer domain w r w' :
  probeHttps env fuel dialer domain false w = Returns r w' ->
  stderr_of (trace w') = stderr_of (trace w).
Proof.
  intros H.
  destruct (probeHttps_Returns_inv _ _ _ _ _ _ _ _ H) as [ips [err [w1 Hres]]].
  rewrite (probeHttps_after_resolve _ _ dialer _ false _ _ _ _ Hres) in H.
  destruct (resolve_Returns_full _ _ _ _ _ _ Hres) as [j [_ [Hw1 _]]].
  assert (H1 : stderr_of (trace w1) = stderr_of (trace w)).
  { rewrite Hw1. unfold advance; cbn [trace].
    now rewrite stderr_of_app, loop_trace_no_stderr, app_nil_r. }
  destruct err as [e|].
  - injection H as _ <-. exact H1.
  - now rewrite (probe_loop_quiet _ _ _ _ _ _ _ _ H).
Qed.

Lemma classify_quiet env fuel dialer domain w u w' :
  classify env fuel dialer false domain w = Returns u w' ->
  stderr_of (trace w') = stderr_of (trace w).
Proof.
  intros H.
  destruct (classify_Returns_cases _ _ _ _ _ _ _ _ H)
    as [[w1 [E1 ->]]|[e1 [w1 [r [w2 [E1 [E2 ->]]]]]]].
  - unfold advance; simpl. rewrite stderr_of_app. simpl.
    rewrite app_nil_r. exact (probeHttps_quiet _ _ _ _ _ _ _ E1).
  - unfold advance; simpl. rewrite stderr_of_app.
    rewrite (probeHttps_quiet _ _ _ _ _ _ _ E2). unfold advance; simpl.
    rewrite app_nil_r, (probeHttps_quiet _ _ _ _ _ _ _ E1).
    destruct r; simpl; now rewrite app_nil_r.
Qed.

Lemma fire_world env fuel debug a s s' :
  fire env fuel debug a s = Some s' ->
  world s' = world s \/
  exists i domain u,
    nth_error (workers s) i = Some (W_busy domain) /\
    classify env fuel new_dialer debug domain (world s) = Returns u (world s').
Proof.
  intros H. destruct a; unfold fire in H.
  - destruct (producer s); try discriminate.
    destruct (ReadLine input) as [t rest].
    destruct (String.length t =? 0)%nat; injection H as <-; now left.
  - destruct (producer s); try discriminate.
    destruct (_ <? _); [|discriminate]. injection H as <-. now left.
  - destruct (nth_error (workers s) i) as [[|d|]|]; try discriminate.
    destruct (ch_buf s); [discriminate|]. injection H as <-. now left.
  - destruct (nth_error (workers s) i) as [[|d|]|] eqn:Ei; try discriminate.
    destruct (classify _ _ _ _ _ _) as [u w'| |] eqn:Ec; try discriminate.
    injection H as <-. right. now exists i, d, u.
  - destruct (nth_error (workers s) i) as [[|d|]|]; try discriminate.
    destruct (ch_buf s); [|discriminate].
    destruct (ch_closed s); [|discriminate]. injection H as <-. now left.
  - destruct (producer s); try discriminate.
    destruct (wg s =? 0); [|discriminate]. injection H as <-. now left.
Qed.

(** X10. Without [--debug] the command writes nothing to standard
    error: in every state the pool can reach, whatever the network
    answered, the trace holds no line for standard error. *)
Theorem RunE_quiet_without_debug env fuel N input s :
  reachable env fuel false N input s ->
  stderr_of (trace (world s)) = [].
Proof.
  intros [s0 [sched [Hinit Hrun]]].
  assert (H0 : stderr_of (trace (world s0)) = []).
  { unfold pool_init in Hinit. destruct (N <? 0); [discriminate|].
    injection Hinit as <-. reflexivity. }
  clear Hinit. revert s0 H0 Hrun.
  induction sched as [|a sched IH]; intros s0 H0 Hrun; simpl in Hrun.
  - injection Hrun as <-. exact H0.
  - destruct (fire env fuel false a s0) as [s1|] eqn:E; [|discriminate].
    apply (IH s1); [|exact Hrun].
    destruct (fire_world _ _ _ _ _ _ E) as [->|[i [d [u [_ Hc]]]]];
      [exact H0|].
    now rewrite (classify_quiet _ _ _ _ _ _ _ Hc).
Qed.

Lemma RunE_quiet_without_debug_witness :
  stderr_of (trace (world serial_pool)) = [].
Proof.
  apply (RunE_quiet_without_debug env_www 5 1 sample_input serial_pool).
  eexists _, serial_sched. split; reflexivity.
Defined.

Lemma single_worker_split (ws : list Worker) i x :
  List.length ws = 1%nat -> nth_error ws i = Some x ->
  ws = [x] /\ forall y, set_worker i y ws = [y].
Proof.
  intros Hlen Hi.
  destruct (set_worker_split _ _ _ Hi) as [l1 [l2 [Hsplit [_ Hset]]]].
  rewrite Hsplit in Hlen. rewrite length_app in Hlen. simpl in Hlen.
  destruct l1; [|simpl in Hlen; lia]. destruct l2; [|simpl in Hlen; lia].
  split; [exact Hsplit|]. intros y. now rewrite Hset.
Qed.

Lemma ordered_init input s0 :
  pool_init 1 input = Some s0 -> ordered_inv input s0.
Proof.
  intros H. injection H as <-. split; [reflexivity|].
  exists []. split; [constructor|reflexivity].
Qed.

Lemma ordered_fire env fuel debug input a s s' :
  ordered_inv input s -> fire env fuel debug a s = Some s' ->
  ordered_inv input s'.
Proof.
  intros [Hlen [processed [Hout Heq]]] H. destruct a; unfold fire in H.
  - destruct (producer s) as [inp|t rest| |] eqn:Ep; try discriminate.
    simpl pending in Heq.
    destruct inp as [|t rest]; simpl ReadLine in H; cbv iota beta in H.
    + simpl in H. injection H as <-. split; [exact Hlen|].
      exists processed. now split.
    + rewrite consumed_cons in Heq.
      destruct (String.length t =? 0)%nat; injection H as <-;
        (split; [exact Hlen|]); exists processed; now split.
  - destruct (producer s) as [inp|t rest| |] eqn:Ep; try discriminate.
    destruct (_ <? _); [|discriminate]. injection H as <-.
    split; [exact Hlen|]. exists processed. split; [exact Hout|].
    simpl in *. now rewrite <- app_assoc.
  - destruct (nth_error (workers s) i) as [[|d|]|] eqn:Ei; try discriminate.
    destruct (ch_buf s) as [|domain buf] eqn:Eb; [discriminate|].
    injection H as <-.
    destruct (single_worker_split _ _ _ Hlen Ei) as [Hws Hset].
    unfold ordered_inv. cbn [workers world producer ch_buf]. rewrite Hset.
    split; [reflexivity|].
    exists processed. split; [exact Hout|].
    rewrite Hws in Heq. exact Heq.
  - destruct (nth_error (workers s) i) as [[|d|]|] eqn:Ei; try discriminate.
    destruct (classify _ _ _ _ _ _) as [u w'| |] eqn:Ec; try discriminate.
    injection H as <-.
    destruct (single_worker_split _ _ _ Hlen Ei) as [Hws Hset].
    destruct (classify_Returns_stdout _ _ _ _ _ _ _ _ Ec) as [line [Hline Hform]].
    unfold ordered_inv. cbn [workers world producer ch_buf]. rewrite Hset.
    split; [reflexivity|].
    exists (processed ++ [d]). split.
    + rewrite Hline. apply Forall2_app; [exact Hout|].
      constructor; [exact Hform|constructor].
    + rewrite Hws in Heq. rewrite <- Heq, <- app_assoc. reflexivity.
  - destruct (nth_error (workers s) i) as [[|d|]|] eqn:Ei; try discriminate.
    destruct (ch_buf s) as [|domain buf] eqn:Eb; [|discriminate].
    destruct (ch_closed s); [|discriminate]. injection H as <-.
    destruct (single_worker_split _ _ _ Hlen Ei) as [Hws Hset].
    unfold ordered_inv. cbn [workers world producer ch_buf]. rewrite Hset.
    split; [reflexivity|].
    exists processed. split; [exact Hout|].
    rewrite Hws in Heq. exact Heq.
  - destruct (producer s) as [inp|t rest| |] eqn:Ep; try discriminate.
    destruct (wg s =? 0); [|discriminate]. injection H as <-.
    split; [exact Hlen|]. exists processed. now split.
Qed.

Lemma ordered_run env fuel debug input : forall sched s s',
  ordered_inv input s -> run env fuel debug sched s = Some s' ->
  ordered_inv input s'.
Proof.
  induction sched as [|a sched IH]; intros s s' Hinv H; simpl in H.
  - injection H as <-. exact Hinv.
  - destruct (fire env fuel debug a s) as [s1|] eqn:E; [|discriminate].
    apply (IH s1); [|exact H]. exact (ordered_fire _ _ _ _ _ _ _ Hinv E).
Qed.

(** X11. With [--concurrency 1] the result lines come out in the order
    of the input: in every state the lines printed so far are the lines
    of a prefix of the consumed domains, one each and in this order, and
    when [RunE] has returned they are the lines of all of them. *)
Theorem RunE_single_worker_in_order env fuel debug input s :
  reachable env fuel debug 1 input s ->
  (exists done rest,
     done ++ rest = consumed input /\
     Forall2 result_line done (stdout_of (trace (world s)))) /\
  (producer s = P_returned ->
   Forall2 result_line (consumed input) (stdout_of (trace (world s)))).
Proof.
  intros Hreach. pose proof (reachable_inv _ _ _ _ _ _ Hreach) as Hinv.
  destruct Hreach as [s0 [sched [Hinit Hrun]]].
  destruct (ordered_run _ _ _ _ _ _ _ (ordered_init _ _ Hinit) Hrun)
    as [_ [processed [Hout Heq]]].
  split.
  - exists processed. eexists. split; [exact Heq|exact Hout].
  - intros Hp.
    destruct (pool_returned_drained _ _ _ Hinv Hp) as [_ [Hbuf Hall]].
    assert (Hbusy : busy_domains (workers s) = []).
    { clear -Hall. induction Hall as [|x l <- _ IH]; [reflexivity|exact IH]. }
    rewrite Hbusy, Hbuf, Hp in Heq. simpl in Heq. rewrite app_nil_r in Heq.
    now rewrite <- Heq.
Qed.

Lemma RunE_single_worker_in_order_witness :
  (exists done rest,
     done ++ rest = consumed sample_input /\
     Forall2 result_line done (stdout_of (trace (world serial_pool)))) /\
  (producer serial_pool = P_returned ->
   Forall2 result_line (consumed sample_input)
           (stdout_of (trace (world serial_pool)))).
Proof.
  apply (RunE_single_worker_in_order env_www 5 false sample_input serial_pool).
  eexists _, serial_sched. split; reflexivity.
Defined.

Lemma live_count_le ws : (live_count ws <= List.length ws)%nat.
Proof. unfold live_count. apply filter_length_le. Qed.

(** X12. The pool never trips the Go runtime: while the producer stands
    at a send the channel is open (no send on a closed channel), the
    channel is closed only once the producer has left its read loop, the
    counter of the wait group is the number of workers still in their
    loop and so never negative, and a worker leaves its loop only when
    the channel is closed and empty. *)
Theorem RunE_channel_discipline env fuel debug N input s :
  reachable env fuel debug N input s ->
  (forall t rest, producer s = P_send t rest -> ch_closed s = false) /\
  (ch_closed s = true -> producer s = P_wait \/ producer s = P_returned) /\
  wg s = Z.of_nat (live_count (workers s)) /\
  0 <= wg s <= N /\
  (In W_done (workers s) -> ch_closed s = true /\ ch_buf s = []).
Proof.
  intros Hreach.
  destruct (reachable_inv _ _ _ _ _ _ Hreach)
    as [Hcap Hws Hbuf Hwg Hcl Hdone Hret _].
  split; [intros t rest Hp; now rewrite Hcl, Hp|].
  split.
  { intros Hc. rewrite Hcl in Hc.
    destruct (producer s); try discriminate; auto. }
  split; [exact Hwg|].
  split; [pose proof (live_count_le (workers s)); lia|exact Hdone].
Qed.

Lemma RunE_channel_discipline_witness :
  (forall t rest, producer sample_pool = P_send t rest ->
                  ch_closed sample_pool = false) /\
  (ch_closed sample_pool = true ->
   producer sample_pool = P_wait \/ producer sample_pool = P_returned) /\
  wg sample_pool = Z.of_nat (live_count (workers sample_pool)) /\
  0 <= wg sample_pool <= 2 /\
  (In W_done (workers sample_pool) ->
   ch_closed sample_pool = true /\ ch_buf sample_pool = []).
Proof.
  apply (RunE_channel_discipline env_up 5 false 2 sample_input sample_pool).
  eexists _, sample_sched. split; reflexivity.
Defined.

Lemma no_worker_fire env fuel debug input a s s' :
  no_worker_inv input s -> fire env fuel debug a s = Some s' ->
  no_worker_inv input s'.
Proof.
  intros [Hws [Hw [Hbuf [Hcap [Hwg Hp]]]]] H. destruct a; unfold fire in H.
  - destruct (producer s) as [inp|t rest| |] eqn:Ep; try discriminate.
    assert (inp = input) as ->.
    { destruct Hp as [Hp|[[t [rest [Hp _]]]|[[Hp|Hp] _]]]; congruence. }
    destruct input as [|t rest]; simpl ReadLine in H; cbv iota beta in H.
    + simpl in H. injection H as <-. unfold no_worker_inv; simpl.
      repeat split; auto.
    + destruct (String.length t =? 0)%nat eqn:Et; injection H as <-;
        unfold no_worker_inv; simpl; rewrite Et; repeat split; auto.
      right; left. exists t, rest. split; [reflexivity|discriminate].
  - destruct (producer s) as [inp|t rest| |] eqn:Ep; try discriminate.
    rewrite Hbuf, Hcap in H. discriminate.
  - rewrite Hws in H. destruct i; discriminate.
  - rewrite Hws in H. destruct i; discriminate.
  - rewrite Hws in H. destruct i; discriminate.
  - destruct (producer s) as [inp|t rest| |] eqn:Ep; try discriminate.
    destruct (wg s =? 0); [|discriminate]. injection H as <-.
    unfold no_worker_inv; simpl. repeat split; auto.
    right; right. split; [now right|].
    destruct Hp as [Hp|[[t [rest [Hp _]]]|[_ Hp]]]; congruence.
Qed.

Lemma no_worker_run env fuel debug input : forall sched s s',
  no_worker_inv input s -> run env fuel debug sched s = Some s' ->
  no_worker_inv input s'.
Proof.
  induction sched as [|a sched IH]; intros s s' Hinv H; simpl in H.
  - injection H as <-. exact Hinv.
  - destruct (fire env fuel debug a s) as [s1|] eqn:E; [|discriminate].
    apply (IH s1); [|exact H]. exact (no_worker_fire _ _ _ _ _ _ _ Hinv E).
Qed.

(** X13. With [--concurrency 0] nothing is ever printed and no network
    call is made.  [RunE] returns only when the input holds no domain;
    when it holds one, the producer reads the first line and then blocks
    for ever at the send to the unbuffered channel that no worker reads:
    no goroutine can move. *)
Theorem RunE_zero_concurrency env fuel debug input :
  exists s0,
    pool_init 0 input = Some s0 /\
    (forall sched s,
       run env fuel debug sched s0 = Some s ->
       world s = world0 /\
       (producer s = P_returned -> consumed input = [])) /\
    (consumed input <> [] ->
     exists s1,
       fire env fuel debug Act_read s0 = Some s1 /\
       forall a, fire env fuel debug a s1 = None).
Proof.
  eexists. split; [reflexivity|].
  set (s0 := {| producer := P_read input |}).
  assert (H0 : no_worker_inv input s0)
    by (unfold no_worker_inv; simpl; repeat split; auto).
  split.
  - intros sched s Hrun.
    destruct (no_worker_run _ _ _ _ _ _ _ H0 Hrun)
      as [_ [Hw [_ [_ [_ Hp]]]]].
    split; [exact Hw|]. intros Hret.
    destruct Hp as [Hp|[[t [rest [Hp _]]]|[_ Hp]]]; congruence.
  - intros Hne. destruct input as [|t rest]; [now elim Hne|].
    rewrite consumed_cons in Hne.
    destruct (String.length t =? 0)%nat eqn:Et; [now elim Hne|].
    eexists. split; [unfold fire; simpl; rewrite Et; reflexivity|].
    intros [ | |i|i|i| ]; try reflexivity; destruct i; reflexivity.
Qed.

Lemma RunE_zero_concurrency_witness :
  exists s1,
    fire env_up 5 false Act_read
      {| producer := P_read sample_input; ch_buf := []; ch_cap := 0;
         ch_closed := false; wg := 0; workers := []; world := world0 |}
    = Some s1 /\
    forall a, fire env_up 5 false a s1 = None.
Proof.
  destruct (RunE_zero_concurrency env_up 5 false sample_input)
    as [s0 [Hinit [_ Hblock]]].
  injection Hinit as <-. apply Hblock. discriminate.
Defined.

(** ** Diagnostics of the handshake loop *)

Lemma failure_at_shift env w dialer domain ip rest t i :
  failure_at env (advance 0 0 1 t w) dialer domain rest i
  = failure_at env w dialer domain (ip :: rest) (S i).
Proof.
  unfold failure_at. now rewrite (dial_at_shift env w dialer domain ip).
Qed.

(** In debug mode, when every handshake fails, what the loop wrote plus
    the error it hands back is the error it started with followed by
    the errors of all addresses. *)
Lemma probe_loop_debug_log env dialer domain : forall ips lastErr w,
  (forall i, (i < List.length ips)%nat ->
     dial_at env w dialer domain ips i <> None) ->
  exists t,
    probe_loop env dialer domain true lastErr ips w
    = Returns (last_failure env w dialer domain ips lastErr)
              (advance 0 0 (List.length ips) t w) /\
    stderr_of t ++ err_lines (last_failure env w dialer domain ips lastErr)
    = err_lines lastErr
        ++ map (fun i => (Error (failure_at env w dialer domain ips i)
                            ++ newline)%string)
               (seq 0 (List.length ips)).
Proof.
  induction ips as [|ip rest IH]; intros lastErr w Hall.
  - exists []. rewrite advance_0. split; [reflexivity|].
    simpl. now rewrite app_nil_r.
  - rewrite probe_loop_cons. cbv zeta.
    pose proof (Hall 0%nat ltac:(simpl; lia)) as H0.
    assert (Hf0 : failure_at env w dialer domain (ip :: rest) 0
                  = HandshakeFailure domain ip
                      (match net_dial env (n_dial w) dialer
                               (ip ++ ":443")%string domain with
                       | Some c => c | None => EmptyString end))
      by (unfold failure_at; now rewrite dial_at_0).
    rewrite dial_at_0 in H0.
    destruct (net_dial env (n_dial w) dialer (ip ++ ":443")%string domain)
      as [err|] eqn:E; [|congruence].
    set (t1 := _ ++ [EvDial _ _ _ _]).
    destruct (IH (Some (HandshakeFailure domain ip err)) (advance 0 0 1 t1 w))
      as [t [Hrun Hlog]].
    { intros i Hi. rewrite (dial_at_shift env w dialer domain ip).
      apply Hall. simpl. lia. }
    exists (t1 ++ t). rewrite Hrun, advance_advance.
    rewrite (last_failure_cons env w dialer domain ip rest lastErr err) in *
      by (rewrite dial_at_0; exact E).
    split; [reflexivity|].
    rewrite stderr_of_app, <- app_assoc, Hlog.
    assert (Ht1 : stderr_of t1 = err_lines lastErr)
      by (subst t1; destruct lastErr; reflexivity).
    rewrite Ht1. f_equal.
    cbn [List.length]. rewrite <- cons_seq. cbn [map err_lines app].
    rewrite Hf0. f_equal.
    rewrite <- seq_shift, map_map. apply map_ext. intros i.
    now rewrite (failure_at_shift env w dialer domain ip).
Qed.

Lemma resolve_err_not_handshake env fuel domain w ips d ip cause w' :
  resolve env fuel domain w
  <> Returns (ips, Some (HandshakeFailure d ip cause)) w'.
Proof.
  intros H. destruct (resolve_Returns_full _ _ _ _ _ _ H) as [j [_ [_ Hr]]].
  destruct (in_of (attempt env w (query_A domain) j)) as [m|];
    [|discriminate].
  destruct (spec_reply_result_cases domain m) as [[l [_ E]]|[E|E]];
    rewrite E in Hr; discriminate.
Qed.

(** X14. In debug mode every failed handshake is reported once: when
    [probeHttps] ends with a handshake error, the lines its loop wrote
    to standard error, followed by the line of the error it returns
    (which the worker writes next), are the handshake errors of all the
    addresses [resolve] returned, one line each, in the order of the
    addresses. *)
Theorem probeHttps_debug_reports_each_failure
    env fuel dialer domain w d ip cause w' :
  probeHttps env fuel dialer domain true w
    = Returns (Some (HandshakeFailure d ip cause)) w' ->
  exists ips w1 t,
    resolve env fuel domain w = Returns (ips, None) w1 /\
    trace w' = trace w1 ++ t /\
    stderr_of t ++ [(Error (HandshakeFailure d ip cause) ++ newline)%string]
    = map (fun i => (Error (failure_at env w1 dialer domain ips i)
                       ++ newline)%string)
          (seq 0 (List.length ips)).
Proof.
  intros H.
  destruct (probeHttps_Returns_inv _ _ _ _ _ _ _ _ H) as [ips [err [w1 Hres]]].
  rewrite (probeHttps_after_resolve _ _ dialer _ true _ _ _ _ Hres) in H.
  destruct err as [e0|].
  - injection H as -> _.
    exfalso. exact (resolve_err_not_handshake _ _ _ _ _ _ _ _ _ Hres).
  - pose proof (probe_loop_err_inv _ _ _ _ _ _ _ _ _ H) as Hall.
    destruct (probe_loop_debug_log env dialer domain ips None w1 Hall)
      as [t [Hrun Hlog]].
    rewrite Hrun in H. injection H as He <-.
    rewrite He in Hlog. exists ips, w1, t.
    split; [exact Hres|]. split; [reflexivity|exact Hlog].
Qed.

Lemma probeHttps_debug_reports_each_failure_witness :
  exists ips w1 t,
    resolve env_refused 5 "example.com" world0 = Returns (ips, None) w1 /\
    trace world_refused_probe = trace w1 ++ t /\
    stderr_of t
      ++ [(Error (HandshakeFailure "example.com" "93.184.216.35" "i/o timeout")
             ++ newline)%string]
    = map (fun i => (Error (failure_at env_refused w1 new_dialer "example.com"
                              ips i) ++ newline)%string)
          (seq 0 (List.length ips)).
Proof.
  apply (probeHttps_debug_reports_each_failure env_refused 5 new_dialer
           "example.com" world0 "example.com" "93.184.216.35" "i/o timeout"
           world_refused_probe).
  reflexivity.
Defined.

Lemma busy_domains_length ws :
  List.length (busy_domains ws) = busy_count ws.
Proof.
  unfold busy_count, busy_domains.
  induction ws as [|x ws IH]; [reflexivity|].
  destruct x; simpl; rewrite ?IH; reflexivity.
Qed.

(** X15. At every moment each consumed domain is in exactly one place:
    it has its line on standard output, a worker is busy with it, it
    waits in the channel, or the producer has not sent it yet.  So no
    line is ever printed twice or for a domain that was not read, and
    the lines printed so far are never more than the consumed domains. *)
Theorem RunE_accounts_for_every_domain env fuel debug N input s :
  reachable env fuel debug N input s ->
  exists printed,
    Forall2 result_line printed (stdout_of (trace (world s))) /\
    Permutation
      (printed ++ busy_domains (workers s) ++ ch_buf s ++ pending (producer s))
      (consumed input) /\
    (List.length (stdout_of (trace (world s)))
     + busy_count (workers s) + List.length (ch_buf s)
     + List.length (pending (producer s))
     = List.length (consumed input))%nat.
Proof.
  intros Hreach.
  destruct (reachable_inv _ _ _ _ _ _ Hreach)
    as [_ _ _ _ _ _ _ [printed [Hout Hperm]]].
  exists printed. split; [exact Hout|]. split; [exact Hperm|].
  rewrite <- (Permutation_length Hperm), !length_app,
    <- (Forall2_length Hout).
  rewrite busy_domains_length. lia.
Qed.

Lemma RunE_accounts_for_every_domain_witness :
  exists printed,
    Forall2 result_line printed (stdout_of (trace (world sample_pool))) /\
    Permutation
      (printed ++ busy_domains (workers sample_pool) ++ ch_buf sample_pool
         ++ pending (producer sample_pool))
      (consumed sample_input) /\
    (List.length (stdout_of (trace (world sample_pool)))
     + busy_count (workers sample_pool) + List.length (ch_buf sample_pool)
     + List.length (pending (producer sample_pool))
     = List.length (consumed sample_input))%nat.
Proof.
  apply (RunE_accounts_for_every_domain env_up 5 false 2 sample_input sample_pool).
  eexists _, sample_sched. split; reflexivity.
Defined.
